(** * Presence and message-relay hub (websockets-server.js)

    A shallow embedding of the Socket.IO server of [src/websockets-server.js]:
    the five process-wide index maps, the four listeners registered on every
    connection, and the events they emit.  JavaScript [Map] and [Set] keep
    insertion order and the disconnect cascade iterates over them, so both are
    modelled as association lists / lists in insertion order. *)

From Stdlib Require Import String List ZArith Bool Lia Ascii.
Import ListNotations.
Open Scope string_scope.
Open Scope list_scope.

(** ** JavaScript [Set] of strings, in insertion order *)
Module JsSet.

Definition t := list string.

(** [new Set()] *)
Definition empty : t := [].

Definition has (x : string) (s : t) : bool := existsb (String.eqb x) s.

(** [s.add(x)]: appended when absent, nothing when present. *)
Definition add (x : string) (s : t) : t := if has x s then s else s ++ [x].

(** [s.delete(x)] *)
Definition delete (x : string) (s : t) : t :=
  filter (fun y => negb (String.eqb x y)) s.

Definition size (s : t) : nat := length s.

End JsSet.

(** ** JavaScript [Map] with string keys, in insertion order *)
Module JsMap.
Section WithValue.
Context {V : Type}.

Definition t := list (string * V).

(** [new Map()] *)
Definition empty : t := [].

Fixpoint get (k : string) (m : t) : option V :=
  match m with
  | [] => None
  | (k', v) :: r => if String.eqb k k' then Some v else get k r
  end.

Definition has (k : string) (m : t) : bool :=
  match get k m with Some _ => true | None => false end.

(** [m.set(k, v)]: an existing key keeps its position, a new key goes last. *)
Fixpoint set (k : string) (v : V) (m : t) : t :=
  match m with
  | e :: r => if String.eqb k (fst e) then (fst e, v) :: r else e :: set k v r
  | [] => (k, v) :: []
  end.

(** [m.delete(k)] *)
Definition delete (k : string) (m : t) : t :=
  filter (fun e => negb (String.eqb k (fst e))) m.

Definition size (m : t) : nat := length m.
Definition keys (m : t) : list string := map fst m.
Definition values (m : t) : list V := map snd m.

(** How many entries carry key [k] (a JavaScript Map never has two). *)
Definition count (k : string) (m : t) : nat :=
  length (filter (fun e => String.eqb k (fst e)) m).

End WithValue.
Arguments t : clear implicits.
End JsMap.

(** ** Data model *)

Inductive status := online | offline.

(** [socket.data.user], as the authentication middleware stores it. *)
Record identity := mkIdentity {
  user_id : string;
  user_name : string;
  user_image : option string
}.

(** Value of [activeUsers]. *)
Record presence := mkPresence {
  p_id : string;
  p_name : string;
  p_image : option string;
  p_status : status;
  p_lastActive : Z;
  p_socketId : string
}.

(** Value of the inner maps of [communityMembers]. *)
Record member := mkMember {
  m_id : string;
  m_name : string;
  m_image : option string;
  m_status : status;
  m_lastActive : Z
}.

(** Opaque JSON carried through unchanged (a post, a saved message). *)
Definition json := string.

(** One socket as Socket.IO holds it: id, [socket.data.user], [socket.rooms]. *)
Record socket := mkSocket {
  sock_id : string;
  sock_user : identity;
  sock_rooms : JsSet.t
}.

(** What the listeners of one connection close over. *)
Record conn := mkConn {
  c_id : string;          (* socket.id *)
  c_user : identity       (* socket.data.user *)
}.

Definition userId (c : conn) : string := user_id (c_user c).
Definition username (c : conn) : string := user_name (c_user c).
Definition userImage (c : conn) : option string := user_image (c_user c).

Record state := mkState {
  activeUsers : JsMap.t presence;
  userSockets : JsMap.t JsSet.t;
  communityMembers : JsMap.t (JsMap.t member);
  channelMembers : JsMap.t (JsMap.t member);
  typingUsers : JsMap.t (JsMap.t member);
  io_sockets : list socket          (* the sockets Socket.IO has open *)
}.

Definition init : state := mkState [] [] [] [] [] [].

(** ** Events *)

Inductive target :=
| ToAll                                   (* io.emit *)
| ToRoom (room : string)                  (* io.to(room).emit *)
| ToRoomExcept (room : string) (sender : string)  (* socket.to(room).emit *)
| ToSocket (sid : string).                (* socket.emit *)

Inductive payload :=
| PUserStatus (uid : string) (st : status) (lastActive : Z)
| PMemberJoined (communityId : string) (uid name : string)
                (image : option string) (st : status)
| PMembers (communityId : string) (members : list member)
| PJson (v : json)
| PError (message : string)
| PMemberLeft (communityId uid : string)
| PChannelMemberLeft (channelId uid : string)
| PTyping (channelId uid : string) (isTyping : bool).

Record event := mkEvent {
  ev_target : target;
  ev_name : string;
  ev_payload : payload
}.

(** Room names, as the template strings of the source build them. *)
Definition user_room (uid : string) : string := ("user:" ++ uid)%string.
Definition community_room (cid : string) : string := ("community:" ++ cid)%string.
Definition channel_room (chid : string) : string := ("channel:" ++ chid)%string.
Definition typing_event (chid : string) : string :=
  ("channel:" ++ chid ++ ":typing")%string.

(** Does the open socket [sid] receive [e]?  Every handler changes
    [io_sockets] before its first emit, so events are resolved against the
    state the handler returns. *)
Definition in_scope (k : socket) (tg : target) : bool :=
  match tg with
  | ToAll => true
  | ToRoom r => JsSet.has r (sock_rooms k)
  | ToRoomExcept r s => JsSet.has r (sock_rooms k) && negb (String.eqb (sock_id k) s)
  | ToSocket s => String.eqb (sock_id k) s
  end.

Definition receives (st : state) (sid : string) (e : event) : bool :=
  existsb (fun k => String.eqb (sock_id k) sid && in_scope k (ev_target e))
          (io_sockets st).

(** The events of [evs] that reach socket [sid]. *)
Definition delivered (st : state) (sid : string) (evs : list event) : list event :=
  filter (receives st sid) evs.

Definition named (n : string) (evs : list event) : list event :=
  filter (fun e => String.eqb (ev_name e) n) evs.

(** ** What Socket.IO does around the listeners *)

(** A new socket is opened in the room named by its own id. *)
Definition sio_open (c : conn) (st : state) : state :=
  mkState (activeUsers st) (userSockets st) (communityMembers st)
          (channelMembers st) (typingUsers st)
          (io_sockets st ++ [mkSocket (c_id c) (c_user c) [c_id c]]).

(** A closing socket leaves all rooms before its disconnect listener runs. *)
Definition sio_close (c : conn) (st : state) : state :=
  mkState (activeUsers st) (userSockets st) (communityMembers st)
          (channelMembers st) (typingUsers st)
          (filter (fun k => negb (String.eqb (sock_id k) (c_id c))) (io_sockets st)).

(** [socket.join(room)] *)
Definition socket_join (c : conn) (room : string) (ss : list socket) : list socket :=
  map (fun k => if String.eqb (sock_id k) (c_id c)
                then mkSocket (sock_id k) (sock_user k) (JsSet.add room (sock_rooms k))
                else k) ss.

(** ** The listeners *)

(** [io.on("connection")], lines 67-98; [t1], [t2] are its two clock reads. *)
Definition on_connection (c : conn) (t1 t2 : Z) (st : state) : state * list event :=
  let au := JsMap.set (userId c)
              (mkPresence (userId c) (username c) (userImage c) online t1 (c_id c))
              (activeUsers st) in
  let us1 := if negb (JsMap.has (userId c) (userSockets st))
             then JsMap.set (userId c) JsSet.empty (userSockets st)
             else userSockets st in
  let us2 := match JsMap.get (userId c) us1 with
             | Some s => JsMap.set (userId c) (JsSet.add (c_id c) s) us1
             | None => us1
             end in
  (mkState au us2 (communityMembers st) (channelMembers st) (typingUsers st)
           (socket_join c (user_room (userId c)) (io_sockets st)),
   [mkEvent ToAll "user:status" (PUserStatus (userId c) online t2)]).

(** [socket.on("joinCommunity")], lines 101-136. *)
Definition on_joinCommunity (c : conn) (communityId : string) (t : Z) (st : state)
  : state * list event :=
  let cm1 := if negb (JsMap.has communityId (communityMembers st))
             then JsMap.set communityId JsMap.empty (communityMembers st)
             else communityMembers st in
  let cm2 := match JsMap.get communityId cm1 with
             | Some ms =>
                 JsMap.set communityId
                   (JsMap.set (userId c)
                      (mkMember (userId c) (username c) (userImage c) online t) ms)
                   cm1
             | None => cm1
             end in
  let onlineMembers := match JsMap.get communityId cm2 with
                       | Some ms => JsMap.values ms
                       | None => []
                       end in
  (mkState (activeUsers st) (userSockets st) cm2 (channelMembers st) (typingUsers st)
           (socket_join c (community_room communityId) (io_sockets st)),
   [mkEvent (ToRoomExcept (community_room communityId) (c_id c))
            "community:member:joined"
            (PMemberJoined communityId (userId c) (username c) (userImage c) online);
    mkEvent (ToSocket (c_id c)) "community:members"
            (PMembers communityId onlineMembers)]).

(** [socket.on("newPost")], lines 139-156.  [saved] tells whether the call to
    the posts API went through; a failure is only logged. *)
Definition on_newPost (c : conn) (post : json) (saved : bool) (st : state)
  : state * list event :=
  (st, [mkEvent ToAll "newPost" (PJson post)]).

(** [socket.on("direct:message")], lines 159-199, from the point where the
    call to the messages API has settled: [Some m] is [savedMessage.message]
    of an ok response, [None] any failure (rejected fetch, non-ok response,
    unreadable body). *)
Definition on_direct_message (c : conn) (recipientId : string) (message : json)
    (saved : option json) (st : state) : state * list event :=
  match saved with
  | Some m =>
      (st,
       (match JsMap.get recipientId (userSockets st) with
        | Some sids =>
            map (fun socketId => mkEvent (ToRoom socketId) "direct:message:new" (PJson m))
                sids
        | None => []
        end)
       ++ [mkEvent (ToSocket (c_id c)) "direct:message:sent" (PJson m)])
  | None =>
      (st, [mkEvent (ToSocket (c_id c)) "error" (PError "Failed to send message")])
  end.

(** One of the three [for ... of m.entries()] loops of the disconnect
    listener: drop [uid] from every inner map that has it, one event each. *)
Fixpoint cascade {V : Type} (uid : string) (notify : string -> event)
    (m : JsMap.t (JsMap.t V)) : JsMap.t (JsMap.t V) * list event :=
  match m with
  | [] => ([], [])
  | (gid, members) :: rest =>
      let (rest', evs) := cascade uid notify rest in
      if JsMap.has uid members
      then ((gid, JsMap.delete uid members) :: rest', notify gid :: evs)
      else ((gid, members) :: rest', evs)
  end.

Definition community_left (uid communityId : string) : event :=
  mkEvent (ToRoom (community_room communityId)) "community:member:left"
          (PMemberLeft communityId uid).

Definition channel_left (uid channelId : string) : event :=
  mkEvent (ToRoom (channel_room channelId)) "channel:member:left"
          (PChannelMemberLeft channelId uid).

Definition typing_stopped (uid channelId : string) : event :=
  mkEvent (ToRoom (channel_room channelId)) (typing_event channelId)
          (PTyping channelId uid false).

(** [socket.on("disconnect")], lines 202-267; [t1], [t2] are its clock reads. *)
Definition on_disconnect (c : conn) (t1 t2 : Z) (st : state) : state * list event :=
  match JsMap.get (userId c) (userSockets st) with
  | Some sids =>
      let sids' := JsSet.delete (c_id c) sids in
      let us := JsMap.set (userId c) sids' (userSockets st) in
      if Nat.eqb (JsSet.size sids') 0 then
        let au := match JsMap.get (userId c) (activeUsers st) with
                  | Some userData =>
                      JsMap.set (userId c)
                        (mkPresence (p_id userData) (p_name userData) (p_image userData)
                                    offline t1 (p_socketId userData))
                        (activeUsers st)
                  | None => activeUsers st
                  end in
        let (cm, evs_community) :=
          cascade (userId c) (community_left (userId c)) (communityMembers st) in
        let (ch, evs_channel) :=
          cascade (userId c) (channel_left (userId c)) (channelMembers st) in
        let (ty, evs_typing) :=
          cascade (userId c) (typing_stopped (userId c)) (typingUsers st) in
        (mkState au us cm ch ty (io_sockets st),
         mkEvent ToAll "user:status" (PUserStatus (userId c) offline t2)
           :: evs_community ++ evs_channel ++ evs_typing)
      else
        (mkState (activeUsers st) us (communityMembers st) (channelMembers st)
                 (typingUsers st) (io_sockets st), [])
  | None => (st, [])
  end.

(** ** Operations of the server *)

Inductive op :=
| Connect (c : conn) (t1 t2 : Z)
| JoinCommunity (c : conn) (communityId : string) (t : Z)
| NewPost (c : conn) (post : json) (saved : bool)
| DirectMessage (c : conn) (recipientId : string) (message : json) (saved : option json)
| Other (c : conn) (name : string) (arg : json)   (* no listener registered *)
| Disconnect (c : conn) (t1 t2 : Z).

Definition exec (st : state) (o : op) : state * list event :=
  match o with
  | Connect c t1 t2 => on_connection c t1 t2 (sio_open c st)
  | JoinCommunity c communityId t => on_joinCommunity c communityId t st
  | NewPost c post saved => on_newPost c post saved st
  | DirectMessage c r m saved => on_direct_message c r m saved st
  | Other _ _ _ => (st, [])
  | Disconnect c t1 t2 => on_disconnect c t1 t2 (sio_close c st)
  end.

(** State after a sequence of operations, and everything emitted on the way. *)
Fixpoint run (st : state) (ops : list op) : state * list event :=
  match ops with
  | [] => (st, [])
  | o :: rest =>
      let (st1, evs1) := exec st o in
      let (st2, evs2) := run st1 rest in
      (st2, evs1 ++ evs2)
  end.

(** ** Reachable states

    [run] applies the listeners to any sequence of operations.  Socket.IO
    itself admits fewer: a socket id is new when the socket opens (and, being
    a base64 id, has no colon in it), and a socket only emits and closes
    while it is open.  The two asynchronous listeners finish after an await,
    possibly once their socket has closed, so they carry no such guard. *)

Fixpoint has_colon (s : string) : bool :=
  match s with
  | EmptyString => false
  | String a r => Ascii.eqb a ":" || has_colon r
  end.

Definition option_eqb (a b : option string) : bool :=
  match a, b with
  | Some x, Some y => String.eqb x y
  | None, None => true
  | _, _ => false
  end.

Definition identity_eqb (a b : identity) : bool :=
  String.eqb (user_id a) (user_id b) && String.eqb (user_name a) (user_name b)
  && option_eqb (user_image a) (user_image b).

Definition is_open (st : state) (c : conn) : bool :=
  existsb (fun k => String.eqb (sock_id k) (c_id c) && identity_eqb (sock_user k) (c_user c))
          (io_sockets st).

Definition id_in_use (st : state) (sid : string) : bool :=
  existsb (fun k => String.eqb (sock_id k) sid) (io_sockets st).

Definition enabled (st : state) (o : op) : bool :=
  match o with
  | Connect c _ _ => negb (id_in_use st (c_id c)) && negb (has_colon (c_id c))
  | JoinCommunity c _ _ => is_open st c
  | NewPost _ _ _ => true
  | DirectMessage _ _ _ _ => true
  | Other c _ _ => is_open st c
  | Disconnect c _ _ => is_open st c
  end.

Inductive reachable : state -> Prop :=
| reach_init : reachable init
| reach_step st o :
    reachable st -> enabled st o = true -> reachable (fst (exec st o)).

(** Executable check that Socket.IO admits a whole sequence. *)
Fixpoint admitted (st : state) (ops : list op) : bool :=
  match ops with
  | [] => true
  | o :: rest => enabled st o && admitted (fst (exec st o)) rest
  end.

(** ** Observations on a state *)

(** The open handles the registry holds for user [u]. *)
Definition handles (st : state) (u : string) : JsSet.t :=
  match JsMap.get u (userSockets st) with Some s => s | None => [] end.

Definition status_eqb (a b : status) : bool :=
  match a, b with
  | online, online => true
  | offline, offline => true
  | _, _ => false
  end.

(** [activeUsers] has a record for [u] and its status is online. *)
Definition is_online (st : state) (u : string) : bool :=
  match JsMap.get u (activeUsers st) with
  | Some p => status_eqb (p_status p) online
  | None => false
  end.

(** Members of community [cid] (empty when the community was never joined). *)
Definition members_of (st : state) (cid : string) : JsMap.t member :=
  match JsMap.get cid (communityMembers st) with Some ms => ms | None => [] end.

Definition is_member (st : state) (cid u : string) : bool :=
  JsMap.has u (members_of st cid).

(** [u] is in the typing set of channel [ch]. *)
Definition is_typing (st : state) (ch u : string) : bool :=
  match JsMap.get ch (typingUsers st) with
  | Some m => JsMap.has u m
  | None => false
  end.

(** An event that reports somebody as typing. *)
Definition typing_started (e : event) : bool :=
  match ev_payload e with
  | PTyping _ _ isTyping => isTyping
  | _ => false
  end.

(** The member-left notifications of community [g] among [evs]. *)
Definition member_left_events (g : string) (evs : list event) : list event :=
  filter (fun e => match ev_payload e with
                   | PMemberLeft g' _ => String.eqb g' g
                   | _ => false
                   end) evs.

(** Notifications of the channel and typing indexes. *)
Definition channel_notice (e : event) : bool :=
  match ev_payload e with
  | PChannelMemberLeft _ _ => true
  | PTyping _ _ _ => true
  | _ => false
  end.

(** What one pass of the cascade does to one entry of an index. *)
Definition prune {V : Type} (uid : string) (e : string * JsMap.t V)
  : string * JsMap.t V :=
  (fst e, if JsMap.has uid (snd e) then JsMap.delete uid (snd e) else snd e).

(** ** Invariants of the indexes *)

(** Presence follows the handle set. *)
Definition presence_inv (st : state) : Prop :=
  forall u, is_online st u = negb (Nat.eqb (JsSet.size (handles st u)) 0).

(** The channel and typing indexes hold nothing. *)
Definition indexes_empty (st : state) : Prop :=
  channelMembers st = [] /\ typingUsers st = [].

(** Keys are distinct in the community index and in each membership map. *)
Definition groups_wf (st : state) : Prop :=
  NoDup (JsMap.keys (communityMembers st)) /\
  forall g ms, In (g, ms) (communityMembers st) -> NoDup (JsMap.keys ms).

(** Open sockets have distinct, colon-free ids, sit in the room of their own
    id and otherwise only in rooms built from a template, and every handle
    of the registry is an open socket of that user. *)
Definition sockets_inv (st : state) : Prop :=
  NoDup (map sock_id (io_sockets st)) /\
  (forall k, In k (io_sockets st) ->
     has_colon (sock_id k) = false /\ In (sock_id k) (sock_rooms k) /\
     forall r, In r (sock_rooms k) -> r = sock_id k \/ has_colon r = true) /\
  (forall u sids sid, JsMap.get u (userSockets st) = Some sids -> In sid sids ->
     exists k, In k (io_sockets st) /\ sock_id k = sid /\ user_id (sock_user k) = u) /\
  (forall u sids, JsMap.get u (userSockets st) = Some sids -> NoDup sids).

(** ** Fixtures for concrete runs *)

Module Fixtures.

Definition alice := mkIdentity "A" "alice" None.
Definition bob := mkIdentity "B" "bob" (Some "bob.png").
Definition a1 := mkConn "a1" alice.
Definition a2 := mkConn "a2" alice.
Definition b1 := mkConn "b1" bob.
Definition b2 := mkConn "b2" bob.

(** Alice alone, on one device. *)
Definition alice_alone : state := fst (run init [Connect a1 1 2]).

(** Alice and Bob, one device each. *)
Definition one_each : state := fst (run init [Connect a1 1 2; Connect b1 3 4]).

(** Alice and Bob, two devices each. *)
Definition two_each : state :=
  fst (run init [Connect a1 1 2; Connect a2 3 4; Connect b1 5 6; Connect b2 7 8]).

(** Alice in two communities, Bob in one of them and in a third. *)
Definition in_groups : state :=
  fst (run init [Connect a1 1 2; Connect b1 3 4;
                 JoinCommunity a1 "g1" 5; JoinCommunity b1 "g1" 6;
                 JoinCommunity a1 "g2" 7; JoinCommunity b1 "g3" 8]).

End Fixtures.

(** ** Rooms and further invariants *)

(** The open socket [sid] is in room [r]. *)
Definition in_room (st : state) (sid r : string) : bool :=
  existsb (fun k => String.eqb (sock_id k) sid && JsSet.has r (sock_rooms k))
          (io_sockets st).

(** Some open socket has id [sid] and belongs to user [u]. *)
Definition open_for (st : state) (sid u : string) : bool :=
  existsb (fun k => String.eqb (sock_id k) sid
                    && String.eqb (user_id (sock_user k)) u)
          (io_sockets st).

(** User [u] has at least one open socket. *)
Definition has_open_socket (st : state) (u : string) : bool :=
  existsb (fun k => String.eqb (user_id (sock_user k)) u) (io_sockets st).


(** Every open socket is a handle of its user in the registry. *)
Definition open_registered (st : state) : Prop :=
  forall k, In k (io_sockets st) ->
    In (sock_id k) (handles st (user_id (sock_user k))).

(** Every open socket sits in the personal room of its user. *)
Definition in_user_room (st : state) : Prop :=
  forall k, In k (io_sockets st) ->
    In (user_room (user_id (sock_user k))) (sock_rooms k).

(** Whoever is in a membership map has a handle. *)
Definition members_connected (st : state) : Prop :=
  forall g u, is_member st g u = true -> handles st u <> [].

(** Records of [activeUsers]: one per key, each carrying its key as id. *)
Definition presence_wf (st : state) : Prop :=
  NoDup (JsMap.keys (activeUsers st)) /\
  forall u p, JsMap.get u (activeUsers st) = Some p -> p_id p = u.

(** The communities that hold [u], in the order of the index. *)
Definition communities_of (st : state) (u : string) : list string :=
  JsMap.keys (filter (fun e => JsMap.has u (snd e)) (communityMembers st)).

(** Every snapshot of a membership map sits under its own id and says
    online. *)
Definition snapshots_wf (st : state) : Prop :=
  forall g u mb, JsMap.get u (members_of st g) = Some mb ->
    m_id mb = u /\ m_status mb = online.

(** No key of the presence table, the registry or the community index of
    [st] is missing in [st']. *)
Definition keys_kept (st st' : state) : Prop :=
  incl (JsMap.keys (activeUsers st)) (JsMap.keys (activeUsers st')) /\
  incl (JsMap.keys (userSockets st)) (JsMap.keys (userSockets st')) /\
  incl (JsMap.keys (communityMembers st)) (JsMap.keys (communityMembers st')).

(** ** The handshake: [verifyToken] and the authentication middleware *)

(** The claims of a verified token that [verifyToken] reads; a field the
    token lacks is [None]. *)
Record decoded := mkDecoded {
  d_id : option string;
  d_sub : option string;
  d_name : option string;
  d_email : option string;
  d_picture : option string;
  d_image : option string
}.

(** What [verifyToken] returns and the middleware stores in
    [socket.data.user]. *)
Record auth_user := mkAuthUser {
  au_id : option string;
  au_name : option string;
  au_email : option string;
  au_image : option string
}.

(** JavaScript truthiness of a string that may be undefined. *)
Definition truthy (a : option string) : bool :=
  match a with
  | Some EmptyString => false
  | Some _ => true
  | None => false
  end.

(** [a || b] *)
Definition js_or (a b : option string) : option string :=
  if truthy a then a else b.

(** [verifyToken], lines 26-40.  [jwt_verify] stands for [jwt.verify] with
    the configured secret: [None] when it throws. *)
Definition verifyToken (jwt_verify : string -> option decoded) (token : string)
  : option auth_user :=
  match jwt_verify token with
  | Some d =>
      Some (mkAuthUser (js_or (d_id d) (d_sub d)) (d_name d) (d_email d)
                       (js_or (d_picture d) (d_image d)))
  | None => None
  end.

Inductive handshake :=
| Accepted (user : auth_user)          (* socket.data.user = user; next() *)
| Refused (message : string).          (* next(new Error(message)) *)

(** The try block of [io.use], lines 47-59, once [token] has been read
    from the handshake. *)
Definition authenticate (jwt_verify : string -> option decoded)
    (token : option string) : handshake :=
  if negb (truthy token) then Refused "Authentication token required"
  else
    match token with
    | Some t =>
        match verifyToken jwt_verify t with
        | Some user => Accepted user
        | None => Refused "Invalid authentication token"
        end
    | None => Refused "Authentication token required"
    end.

(** [io.use], lines 43-64, with its catch branch.  [auth] is
    [socket.handshake.auth]: [None] when it is null or undefined, so that
    reading its [token] throws and the catch branch answers; [Some token]
    otherwise, [token] being [None] when the property is undefined. *)
Definition io_use (jwt_verify : string -> option decoded)
    (auth : option (option string)) : handshake :=
  match auth with
  | Some token => authenticate jwt_verify token
  | None => Refused "Authentication failed"
  end.

(** ** More concrete states *)

Module Scenes.
Import Fixtures.

(** Alice on two devices, the first of them in a community with Bob. *)
Definition shared_group : state :=
  fst (run init [Connect a1 1 2; Connect a2 3 4; Connect b1 5 6;
                 JoinCommunity a1 "g1" 7; JoinCommunity b1 "g1" 8]).

(** Alice has come and gone. *)
Definition alice_gone : state :=
  fst (run init [Connect a1 1 2; JoinCommunity a1 "g1" 3; Disconnect a1 4 5]).

(** Alice and Bob are in a community; the socket through which Bob joined
    has closed, and Bob is still online on a second socket. *)
Definition member_outside_room : state :=
  fst (run init [Connect a1 1 2; Connect b1 3 4; Connect b2 5 6;
                 JoinCommunity a1 "g1" 7; JoinCommunity b1 "g1" 8;
                 Disconnect b1 9 10]).

End Scenes.

(** ** Facts about [JsSet] and [JsMap] *)

Module JsSetFacts.

Lemma has_In x s : JsSet.has x s = true <-> In x s.
Proof.
  unfold JsSet.has. rewrite existsb_exists. split.
  - intros [y [Hy E]]. apply String.eqb_eq in E. now subst.
  - intros H. exists x. split; [assumption | apply String.eqb_refl].
Qed.

Lemma In_add y x s : In y (JsSet.add x s) <-> y = x \/ In y s.
Proof.
  unfold JsSet.add. destruct (JsSet.has x s) eqn:E.
  - apply has_In in E. split; [auto | intros [->|H]; assumption].
  - rewrite in_app_iff. simpl. intuition.
Qed.

Lemma add_not_nil x s : JsSet.add x s <> [].
Proof.
  unfold JsSet.add. destruct (JsSet.has x s) eqn:E.
  - apply has_In in E. destruct s; [contradiction | discriminate].
  - destruct s; discriminate.
Qed.

Lemma In_delete y x s : In y (JsSet.delete x s) <-> In y s /\ y <> x.
Proof.
  unfold JsSet.delete. rewrite filter_In. split.
  - intros [H E]. split; [assumption|]. intros ->.
    rewrite String.eqb_refl in E. discriminate.
  - intros [H N]. split; [assumption|].
    apply negb_true_iff. apply String.eqb_neq. congruence.
Qed.

Lemma NoDup_add x s : NoDup s -> NoDup (JsSet.add x s).
Proof.
  intros H. unfold JsSet.add. destruct (JsSet.has x s) eqn:E; [assumption|].
  apply NoDup_app; [assumption | repeat constructor; intros [] |].
  intros y Hy [<-|[]]. apply has_In in Hy. congruence.
Qed.

Lemma NoDup_delete x s : NoDup s -> NoDup (JsSet.delete x s).
Proof. intros H. unfold JsSet.delete. now apply NoDup_filter. Qed.

Lemma delete_absent x s : ~ In x s -> JsSet.delete x s = s.
Proof.
  intros H. unfold JsSet.delete. induction s as [|y s IH]; [reflexivity|].
  simpl. destruct (String.eqb x y) eqn:E.
  - apply String.eqb_eq in E. subst. exfalso. apply H. now left.
  - simpl. f_equal. apply IH. intros H'. apply H. now right.
Qed.

Lemma delete_delete x s : JsSet.delete x (JsSet.delete x s) = JsSet.delete x s.
Proof. apply delete_absent. rewrite In_delete. intros [_ N]. now apply N. Qed.

End JsSetFacts.

Module JsMapFacts.
Section WithValue.
Context {V : Type}.
Implicit Types (m : JsMap.t V) (k : string) (v : V).

Lemma get_set_same k v m : JsMap.get k (JsMap.set k v m) = Some v.
Proof.
  induction m as [|[k' v'] m IH]; simpl.
  - now rewrite String.eqb_refl.
  - destruct (String.eqb k k') eqn:E; simpl; rewrite E; [reflexivity | exact IH].
Qed.

Lemma get_set_other k k' v m :
  k <> k' -> JsMap.get k (JsMap.set k' v m) = JsMap.get k m.
Proof.
  intros N. induction m as [|[k2 v2] m IH]; simpl.
  - apply String.eqb_neq in N. now rewrite N.
  - destruct (String.eqb k' k2) eqn:E; simpl.
    + apply String.eqb_eq in E. subst k2.
      apply String.eqb_neq in N. now rewrite N.
    + now rewrite IH.
Qed.

Lemma has_set_same k v m : JsMap.has k (JsMap.set k v m) = true.
Proof. unfold JsMap.has. now rewrite get_set_same. Qed.

Lemma keys_set_present k v m :
  JsMap.has k m = true -> JsMap.keys (JsMap.set k v m) = JsMap.keys m.
Proof.
  unfold JsMap.has. induction m as [|[k' v'] m IH]; simpl; [discriminate|].
  destruct (String.eqb k k') eqn:E; simpl; [reflexivity|].
  intros H. f_equal. now apply IH.
Qed.

Lemma keys_set_absent k v m :
  JsMap.has k m = false -> JsMap.keys (JsMap.set k v m) = JsMap.keys m ++ [k].
Proof.
  unfold JsMap.has. induction m as [|[k' v'] m IH]; simpl; [reflexivity|].
  destruct (String.eqb k k') eqn:E; simpl; [discriminate|].
  intros H. f_equal. now apply IH.
Qed.

Lemma has_In_keys k m : JsMap.has k m = true <-> In k (JsMap.keys m).
Proof.
  unfold JsMap.has. induction m as [|[k' v'] m IH]; simpl.
  - split; [discriminate | contradiction].
  - destruct (String.eqb k k') eqn:E.
    + apply String.eqb_eq in E. subst. split; auto.
    + rewrite IH. apply String.eqb_neq in E. split; [auto | intros [H|H]; congruence].
Qed.

Lemma NoDup_keys_set k v m :
  NoDup (JsMap.keys m) -> NoDup (JsMap.keys (JsMap.set k v m)).
Proof.
  intros H. destruct (JsMap.has k m) eqn:E.
  - now rewrite keys_set_present.
  - rewrite keys_set_absent by assumption.
    apply NoDup_app; [assumption | repeat constructor; intros [] |].
    intros y Hy [<-|[]]. apply has_In_keys in Hy. congruence.
Qed.

Lemma size_set_present k v m :
  JsMap.has k m = true -> JsMap.size (JsMap.set k v m) = JsMap.size m.
Proof.
  intros H. unfold JsMap.size.
  rewrite <- (length_map fst (JsMap.set k v m)), <- (length_map fst m).
  change (length (JsMap.keys (JsMap.set k v m)) = length (JsMap.keys m)).
  now rewrite keys_set_present.
Qed.

Lemma count_keys k m :
  JsMap.count k m = length (filter (String.eqb k) (JsMap.keys m)).
Proof.
  unfold JsMap.count, JsMap.keys. induction m as [|[k' v'] m IH]; simpl; [reflexivity|].
  destruct (String.eqb k k'); simpl; now rewrite IH.
Qed.

Lemma count_NoDup k m :
  NoDup (JsMap.keys m) -> JsMap.has k m = true -> JsMap.count k m = 1.
Proof.
  rewrite count_keys, has_In_keys. generalize (JsMap.keys m) as l.
  induction l as [|x l IH]; simpl; [contradiction|].
  intros ND H. inversion ND as [|? ? Hx ND']; subst.
  destruct (String.eqb k x) eqn:E.
  - apply String.eqb_eq in E. subst. simpl. f_equal.
    clear IH H ND ND'. induction l as [|y l IH]; simpl; [reflexivity|].
    destruct (String.eqb x y) eqn:E.
    + apply String.eqb_eq in E. subst. exfalso. apply Hx. now left.
    + apply IH. intros H. apply Hx. now right.
  - apply String.eqb_neq in E. destruct H as [H|H]; [congruence|]. now apply IH.
Qed.

Lemma has_delete k m : JsMap.has k (JsMap.delete k m) = false.
Proof.
  destruct (JsMap.has k (JsMap.delete k m)) eqn:E; [|reflexivity].
  apply has_In_keys in E. unfold JsMap.keys, JsMap.delete in E.
  apply in_map_iff in E. destruct E as [[k' v'] [<- H]].
  apply filter_In in H. destruct H as [_ H]. simpl in H.
  now rewrite String.eqb_refl in H.
Qed.

Lemma NoDup_keys_delete k m :
  NoDup (JsMap.keys m) -> NoDup (JsMap.keys (JsMap.delete k m)).
Proof.
  unfold JsMap.keys, JsMap.delete. induction m as [|[k' v'] m IH]; simpl; [auto|].
  intros ND. inversion ND as [|? ? Hx ND']; subst.
  destruct (String.eqb k k'); simpl; [auto|].
  constructor; [|auto]. intros H. apply Hx.
  apply in_map_iff in H. destruct H as [e [<- H]].
  apply filter_In in H. apply in_map. tauto.
Qed.

Lemma get_In k v m : JsMap.get k m = Some v -> In (k, v) m.
Proof.
  induction m as [|[k' v'] m IH]; simpl; [discriminate|].
  destruct (String.eqb k k') eqn:E.
  - apply String.eqb_eq in E. intros [= ->]. subst. now left.
  - auto.
Qed.

Lemma In_set k v k' v' m :
  In (k', v') (JsMap.set k v m) -> In (k', v') m \/ (k' = k /\ v' = v).
Proof.
  induction m as [|[k2 v2] m IH]; simpl.
  - intros [[= <- <-]|[]]. auto.
  - destruct (String.eqb k k2) eqn:E; simpl.
    + apply String.eqb_eq in E. subst. intros [[= <- <-]|H]; auto.
    + intros [H|H]; [auto|]. destruct (IH H); auto.
Qed.

End WithValue.
End JsMapFacts.

(** ** Projections of the listeners *)

Ltac split_cascades :=
  repeat match goal with
         | |- context [cascade ?u ?f ?m] => destruct (cascade u f m)
         end.

Lemma on_disconnect_userSockets c t1 t2 st :
  userSockets (fst (on_disconnect c t1 t2 st)) =
  match JsMap.get (userId c) (userSockets st) with
  | Some sids => JsMap.set (userId c) (JsSet.delete (c_id c) sids) (userSockets st)
  | None => userSockets st
  end.
Proof.
  unfold on_disconnect.
  destruct (JsMap.get (userId c) (userSockets st)); [|reflexivity].
  destruct (Nat.eqb _ 0); split_cascades; reflexivity.
Qed.

Lemma on_disconnect_activeUsers c t1 t2 st :
  activeUsers (fst (on_disconnect c t1 t2 st)) =
  match JsMap.get (userId c) (userSockets st) with
  | Some sids =>
      if Nat.eqb (JsSet.size (JsSet.delete (c_id c) sids)) 0 then
        match JsMap.get (userId c) (activeUsers st) with
        | Some p =>
            JsMap.set (userId c)
              (mkPresence (p_id p) (p_name p) (p_image p) offline t1 (p_socketId p))
              (activeUsers st)
        | None => activeUsers st
        end
      else activeUsers st
  | None => activeUsers st
  end.
Proof.
  unfold on_disconnect.
  destruct (JsMap.get (userId c) (userSockets st)); [|reflexivity].
  destruct (Nat.eqb _ 0); split_cascades; reflexivity.
Qed.

Lemma on_connection_handles c t1 t2 st :
  JsMap.get (userId c) (userSockets (fst (on_connection c t1 t2 st))) =
  Some (JsSet.add (c_id c) (handles st (userId c))).
Proof.
  unfold on_connection, handles, JsMap.has. simpl.
  destruct (JsMap.get (userId c) (userSockets st)) as [s|] eqn:E; simpl.
  - rewrite E. apply JsMapFacts.get_set_same.
  - rewrite JsMapFacts.get_set_same. apply JsMapFacts.get_set_same.
Qed.

Lemma on_connection_handles_other c t1 t2 st u :
  u <> userId c ->
  JsMap.get u (userSockets (fst (on_connection c t1 t2 st))) =
  JsMap.get u (userSockets st).
Proof.
  intros N. unfold on_connection, JsMap.has. simpl.
  destruct (JsMap.get (userId c) (userSockets st)) as [s|] eqn:E; simpl.
  - rewrite E. now apply JsMapFacts.get_set_other.
  - rewrite JsMapFacts.get_set_same.
    rewrite JsMapFacts.get_set_other by assumption.
    now apply JsMapFacts.get_set_other.
Qed.

(** Any property kept by every operation holds after every sequence. *)
Lemma run_invariant (P : state -> Prop) :
  (forall st o, P st -> P (fst (exec st o))) ->
  forall ops st, P st -> P (fst (run st ops)).
Proof.
  intros Hstep ops. induction ops as [|o ops IH]; intros st H; simpl; [assumption|].
  specialize (Hstep st o H). destruct (exec st o) as [st1 evs1]. simpl in Hstep.
  specialize (IH st1 Hstep). destruct (run st1 ops) as [st2 evs2]. exact IH.
Qed.

Lemma reachable_invariant (P : state -> Prop) :
  P init ->
  (forall st o, P st -> P (fst (exec st o))) ->
  forall st, reachable st -> P st.
Proof. intros H0 Hstep st R. induction R; auto. Qed.

Lemma admitted_reachable ops :
  forall st, reachable st -> admitted st ops = true -> reachable (fst (run st ops)).
Proof.
  induction ops as [|o ops IH]; intros st R H; simpl in *; [assumption|].
  apply andb_true_iff in H. destruct H as [He Ha].
  pose proof (reach_step st o R He) as R1.
  specialize (IH _ R1 Ha).
  destruct (exec st o) as [st1 evs1]. simpl in *.
  destruct (run st1 ops) as [st2 evs2]. exact IH.
Qed.

(** ** Presence follows the handle set *)

Lemma presence_inv_init : presence_inv init.
Proof. intros u. reflexivity. Qed.

Lemma presence_inv_connect c t1 t2 st :
  presence_inv st -> presence_inv (fst (on_connection c t1 t2 (sio_open c st))).
Proof.
  intros Inv u. unfold is_online, handles.
  destruct (String.eqb u (userId c)) eqn:E.
  - apply String.eqb_eq in E. subst u.
    rewrite on_connection_handles. simpl.
    rewrite JsMapFacts.get_set_same. simpl.
    pose proof (JsSetFacts.add_not_nil (c_id c) (handles (sio_open c st) (userId c))) as N.
    destruct (JsSet.add _ _); [congruence | reflexivity].
  - apply String.eqb_neq in E.
    rewrite on_connection_handles_other by assumption. simpl.
    rewrite JsMapFacts.get_set_other by assumption. apply Inv.
Qed.

Lemma filter_nil_size x s :
  Nat.eqb (JsSet.size (JsSet.delete x s)) 0 = false -> Nat.eqb (JsSet.size s) 0 = false.
Proof. destruct s; [discriminate | reflexivity]. Qed.

Lemma presence_inv_disconnect c t1 t2 st :
  presence_inv st -> presence_inv (fst (on_disconnect c t1 t2 (sio_close c st))).
Proof.
  intros Inv u. unfold is_online, handles.
  rewrite on_disconnect_userSockets, on_disconnect_activeUsers. simpl.
  pose proof (Inv u) as Hu. pose proof (Inv (userId c)) as Hc.
  unfold is_online, handles in Hu, Hc.
  destruct (JsMap.get (userId c) (userSockets st)) as [sids|] eqn:Es; [|exact Hu].
  destruct (String.eqb u (userId c)) eqn:E.
  - apply String.eqb_eq in E. subst u. rewrite JsMapFacts.get_set_same.
    destruct (Nat.eqb (JsSet.size (JsSet.delete (c_id c) sids)) 0) eqn:Ez.
    + destruct (JsMap.get (userId c) (activeUsers st)) as [p|] eqn:Ea.
      * rewrite JsMapFacts.get_set_same. reflexivity.
      * rewrite Ea. reflexivity.
    + rewrite Hc. now rewrite (filter_nil_size _ _ Ez).
  - apply String.eqb_neq in E. rewrite JsMapFacts.get_set_other by assumption.
    destruct (Nat.eqb (JsSet.size (JsSet.delete (c_id c) sids)) 0); [|exact Hu].
    destruct (JsMap.get (userId c) (activeUsers st)); [|exact Hu].
    now rewrite JsMapFacts.get_set_other.
Qed.

Lemma presence_inv_exec st o : presence_inv st -> presence_inv (fst (exec st o)).
Proof.
  destruct o; unfold exec; try (intros H; exact H).
  - apply presence_inv_connect.
  - unfold on_direct_message. destruct saved; intros H; exact H.
  - apply presence_inv_disconnect.
Qed.

(** Over every sequence of operations, admitted by Socket.IO or not, after
    each prefix of the sequence a presence record says online exactly when
    the registry holds at least one handle for that user. *)
Lemma presence_online_iff_handles (ops : list op) (n : nat) (u : string) :
  let st := fst (run init (firstn n ops)) in
  is_online st u = true <-> handles st u <> [].
Proof.
  simpl.
  pose proof (run_invariant presence_inv presence_inv_exec (firstn n ops) init
                presence_inv_init u) as H.
  rewrite H. unfold JsSet.size.
  destruct (handles (fst (run init (firstn n ops))) u); simpl; split;
    congruence || discriminate.
Qed.

(** ** The disconnect cascade *)

Section Cascade.
Context {V : Type}.
Variables (uid : string) (notify : string -> event).
Implicit Type m : JsMap.t (JsMap.t V).

Lemma cascade_fst m : fst (cascade uid notify m) = map (prune uid) m.
Proof.
  induction m as [|[g ms] m IH]; [reflexivity|]. cbn [cascade map].
  destruct (cascade uid notify m) as [rest evs]. cbn [fst] in IH. subst rest.
  destruct (JsMap.has uid ms) eqn:E; cbn [fst map]; unfold prune at 2;
    cbn [fst snd]; rewrite E; reflexivity.
Qed.

Lemma cascade_snd m :
  snd (cascade uid notify m) =
  map notify (JsMap.keys (filter (fun e => JsMap.has uid (snd e)) m)).
Proof.
  induction m as [|[g ms] m IH]; simpl; [reflexivity|].
  destruct (cascade uid notify m) as [rest evs]. simpl in IH. subst evs.
  destruct (JsMap.has uid ms); reflexivity.
Qed.

Lemma cascade_keys m : JsMap.keys (fst (cascade uid notify m)) = JsMap.keys m.
Proof.
  rewrite cascade_fst. unfold JsMap.keys. rewrite map_map. reflexivity.
Qed.

Lemma cascade_get g m :
  JsMap.get g (fst (cascade uid notify m)) =
  match JsMap.get g m with
  | Some ms => Some (if JsMap.has uid ms then JsMap.delete uid ms else ms)
  | None => None
  end.
Proof.
  rewrite cascade_fst. induction m as [|[g' ms] m IH]; [reflexivity|]. cbn [map].
  unfold prune at 1. cbn [fst snd JsMap.get].
  destruct (String.eqb g g'); [reflexivity | exact IH].
Qed.

Lemma cascade_has_after g ms m :
  JsMap.get g (fst (cascade uid notify m)) = Some ms -> JsMap.has uid ms = false.
Proof.
  rewrite cascade_get. destruct (JsMap.get g m) as [ms0|]; [|discriminate].
  intros [= <-]. destruct (JsMap.has uid ms0) eqn:E; [|exact E].
  apply JsMapFacts.has_delete.
Qed.

(** Once pruned, a second pass finds nothing to remove. *)
Lemma cascade_again m :
  cascade uid notify (fst (cascade uid notify m)) = (fst (cascade uid notify m), []).
Proof.
  rewrite cascade_fst. induction m as [|[g ms] m IH]; [reflexivity|].
  cbn [map]. unfold prune at 1 3. cbn [fst snd cascade]. rewrite IH.
  destruct (JsMap.has uid ms) eqn:E; cbv iota.
  - rewrite JsMapFacts.has_delete. reflexivity.
  - rewrite E. reflexivity.
Qed.

Lemma cascade_nil : cascade uid notify ([] : JsMap.t (JsMap.t V)) = ([], []).
Proof. reflexivity. Qed.

End Cascade.

Lemma on_disconnect_communityMembers c t1 t2 st :
  communityMembers (fst (on_disconnect c t1 t2 st)) =
  match JsMap.get (userId c) (userSockets st) with
  | Some sids =>
      if Nat.eqb (JsSet.size (JsSet.delete (c_id c) sids)) 0
      then fst (cascade (userId c) (community_left (userId c)) (communityMembers st))
      else communityMembers st
  | None => communityMembers st
  end.
Proof.
  unfold on_disconnect.
  destruct (JsMap.get (userId c) (userSockets st)); [|reflexivity].
  destruct (Nat.eqb _ 0); split_cascades; reflexivity.
Qed.

Lemma on_disconnect_channelMembers c t1 t2 st :
  channelMembers (fst (on_disconnect c t1 t2 st)) =
  match JsMap.get (userId c) (userSockets st) with
  | Some sids =>
      if Nat.eqb (JsSet.size (JsSet.delete (c_id c) sids)) 0
      then fst (cascade (userId c) (channel_left (userId c)) (channelMembers st))
      else channelMembers st
  | None => channelMembers st
  end.
Proof.
  unfold on_disconnect.
  destruct (JsMap.get (userId c) (userSockets st)); [|reflexivity].
  destruct (Nat.eqb _ 0); split_cascades; reflexivity.
Qed.

Lemma on_disconnect_typingUsers c t1 t2 st :
  typingUsers (fst (on_disconnect c t1 t2 st)) =
  match JsMap.get (userId c) (userSockets st) with
  | Some sids =>
      if Nat.eqb (JsSet.size (JsSet.delete (c_id c) sids)) 0
      then fst (cascade (userId c) (typing_stopped (userId c)) (typingUsers st))
      else typingUsers st
  | None => typingUsers st
  end.
Proof.
  unfold on_disconnect.
  destruct (JsMap.get (userId c) (userSockets st)); [|reflexivity].
  destruct (Nat.eqb _ 0); split_cascades; reflexivity.
Qed.

Lemma on_disconnect_io_sockets c t1 t2 st :
  io_sockets (fst (on_disconnect c t1 t2 st)) = io_sockets st.
Proof.
  unfold on_disconnect.
  destruct (JsMap.get (userId c) (userSockets st)); [|reflexivity].
  destruct (Nat.eqb _ 0); split_cascades; reflexivity.
Qed.

Lemma on_disconnect_events c t1 t2 st :
  snd (on_disconnect c t1 t2 st) =
  match JsMap.get (userId c) (userSockets st) with
  | Some sids =>
      if Nat.eqb (JsSet.size (JsSet.delete (c_id c) sids)) 0
      then mkEvent ToAll "user:status" (PUserStatus (userId c) offline t2)
             :: snd (cascade (userId c) (community_left (userId c)) (communityMembers st))
             ++ snd (cascade (userId c) (channel_left (userId c)) (channelMembers st))
             ++ snd (cascade (userId c) (typing_stopped (userId c)) (typingUsers st))
      else []
  | None => []
  end.
Proof.
  unfold on_disconnect.
  destruct (JsMap.get (userId c) (userSockets st)); [|reflexivity].
  destruct (Nat.eqb _ 0); split_cascades; reflexivity.
Qed.

(** ** The channel and typing indexes are never filled *)

Lemma indexes_empty_exec st o : indexes_empty st -> indexes_empty (fst (exec st o)).
Proof.
  unfold indexes_empty. intros [Hc Ht].
  destruct o; unfold exec; try (split; assumption).
  - unfold on_direct_message. destruct saved; split; assumption.
  - rewrite on_disconnect_channelMembers, on_disconnect_typingUsers. simpl.
    rewrite Hc, Ht.
    destruct (JsMap.get (userId c) (userSockets st)); [|split; reflexivity].
    destruct (Nat.eqb _ 0); split; reflexivity.
Qed.

(** ** Keys of the community index stay distinct *)

Lemma groups_wf_init : groups_wf init.
Proof. split; [constructor | intros g ms []]. Qed.

Lemma groups_wf_join c g t st :
  groups_wf st -> groups_wf (fst (on_joinCommunity c g t st)).
Proof.
  intros [Hk Hin]. unfold on_joinCommunity, groups_wf. simpl.
  set (cm1 := if negb (JsMap.has g (communityMembers st))
              then JsMap.set g JsMap.empty (communityMembers st)
              else communityMembers st).
  assert (W1 : NoDup (JsMap.keys cm1) /\
               forall g' ms, In (g', ms) cm1 -> NoDup (JsMap.keys ms)).
  { subst cm1. destruct (JsMap.has g (communityMembers st)); simpl; [auto|].
    split; [now apply JsMapFacts.NoDup_keys_set|].
    intros g' ms H. apply JsMapFacts.In_set in H.
    destruct H as [H|[_ ->]]; [eauto | constructor]. }
  destruct W1 as [Hk1 Hin1].
  destruct (JsMap.get g cm1) as [ms0|] eqn:E; [|auto].
  split; [now apply JsMapFacts.NoDup_keys_set|].
  intros g' ms H. apply JsMapFacts.In_set in H.
  destruct H as [H|[_ ->]]; [eauto|].
  apply JsMapFacts.NoDup_keys_set. apply (Hin1 g). now apply JsMapFacts.get_In.
Qed.

Lemma groups_wf_disconnect c t1 t2 st :
  groups_wf st -> groups_wf (fst (on_disconnect c t1 t2 (sio_close c st))).
Proof.
  intros [Hk Hin]. unfold groups_wf. rewrite on_disconnect_communityMembers. simpl.
  destruct (JsMap.get (userId c) (userSockets st)); [|auto].
  destruct (Nat.eqb _ 0); [|auto].
  split; [now rewrite cascade_keys|].
  intros g ms H. rewrite cascade_fst in H. apply in_map_iff in H.
  destruct H as [[g0 ms0] [E H]]. unfold prune in E. simpl in E.
  injection E as <- <-. specialize (Hin _ _ H).
  destruct (JsMap.has (userId c) ms0); [now apply JsMapFacts.NoDup_keys_delete | exact Hin].
Qed.

Lemma groups_wf_exec st o : groups_wf st -> groups_wf (fst (exec st o)).
Proof.
  destruct o; unfold exec; try (intros H; exact H).
  - apply groups_wf_join.
  - unfold on_direct_message. destruct saved; intros H; exact H.
  - apply groups_wf_disconnect.
Qed.

Lemma reachable_groups_wf st : reachable st -> groups_wf st.
Proof. apply reachable_invariant; [exact groups_wf_init | exact groups_wf_exec]. Qed.

(** ** Events of the cascade *)

(** Events built by [notify] that [keep] never selects leave nothing. *)
Lemma filter_map_none {G : Type} (keep : event -> bool) (notify : G -> event) gs :
  (forall g, keep (notify g) = false) -> filter keep (map notify gs) = [].
Proof.
  intros H. induction gs as [|g gs IH]; simpl; [reflexivity|]. now rewrite H.
Qed.

Lemma member_left_events_app g l1 l2 :
  member_left_events g (l1 ++ l2) = member_left_events g l1 ++ member_left_events g l2.
Proof. apply filter_app. Qed.

Lemma get_absent {V} (g : string) (m : JsMap.t V) :
  ~ In g (JsMap.keys m) -> JsMap.get g m = None.
Proof.
  intros H. destruct (JsMap.get g m) eqn:E; [|reflexivity].
  exfalso. apply H. apply JsMapFacts.has_In_keys. unfold JsMap.has. now rewrite E.
Qed.

Lemma community_events_for u g (cm : JsMap.t (JsMap.t member)) :
  NoDup (JsMap.keys cm) ->
  member_left_events g (snd (cascade u (community_left u) cm)) =
  if match JsMap.get g cm with Some ms => JsMap.has u ms | None => false end
  then [community_left u g] else [].
Proof.
  rewrite cascade_snd. unfold member_left_events.
  induction cm as [|[g' ms] cm IH]; intros ND; [reflexivity|].
  simpl in ND. inversion ND as [|? ? Hfresh ND']; subst.
  specialize (IH ND'). cbn [filter snd JsMap.get].
  destruct (String.eqb g g') eqn:E.
  - apply String.eqb_eq in E. subst g'.
    rewrite (get_absent g cm Hfresh) in IH.
    destruct (JsMap.has u ms); cbn [JsMap.keys map filter fst]; [|exact IH].
    cbn [community_left ev_payload]. rewrite String.eqb_refl.
    unfold JsMap.keys in IH. now rewrite IH.
  - destruct (JsMap.has u ms); cbn [JsMap.keys map filter fst]; [|exact IH].
    cbn [community_left ev_payload]. rewrite String.eqb_sym, E. exact IH.
Qed.

Lemma handles_get st u s x :
  handles st u = x :: s -> JsMap.get u (userSockets st) = Some (x :: s).
Proof.
  unfold handles. destruct (JsMap.get u (userSockets st)); intros H;
    [now rewrite H | discriminate].
Qed.

Lemma delete_single x : JsSet.delete x [x] = [].
Proof. unfold JsSet.delete. simpl. now rewrite String.eqb_refl. Qed.

(** When the only remaining handle of a user disconnects, the user is in
    no community's membership map afterwards, and for each community the
    notifications emitted are exactly one member-left event to that
    community's room if the user was a member of it, and none otherwise. *)
Lemma last_disconnect_group_events st c t1 t2 g :
  reachable st ->
  handles st (userId c) = [c_id c] ->
  is_member (fst (exec st (Disconnect c t1 t2))) g (userId c) = false /\
  member_left_events g (snd (exec st (Disconnect c t1 t2))) =
    if is_member st g (userId c) then [community_left (userId c) g] else [].
Proof.
  intros R Hh. apply handles_get in Hh.
  pose proof (reachable_groups_wf st R) as [ND _].
  unfold exec, is_member, members_of. split.
  - rewrite on_disconnect_communityMembers. simpl. rewrite Hh, delete_single. simpl.
    destruct (JsMap.get g (fst (cascade _ _ _))) as [ms|] eqn:E; [|reflexivity].
    now apply cascade_has_after in E.
  - rewrite on_disconnect_events. simpl. rewrite Hh, delete_single.
    cbn [JsSet.size length Nat.eqb].
    change (member_left_events g (?e :: ?l)) with (member_left_events g l).
    rewrite !member_left_events_app, community_events_for by assumption.
    rewrite !cascade_snd. unfold member_left_events.
    rewrite !filter_map_none by reflexivity. rewrite !app_nil_r.
    destruct (JsMap.get g (communityMembers st)); reflexivity.
Qed.

(** C10. After every sequence of operations the channel-membership index
    and the typing index are empty, and no channel member-left or typing
    notification is among the events emitted on the way. *)
Theorem channel_and_typing_indexes_stay_empty (ops : list op) :
  channelMembers (fst (run init ops)) = [] /\
  typingUsers (fst (run init ops)) = [] /\
  filter channel_notice (snd (run init ops)) = [].
Proof.
  assert (G : forall st, indexes_empty st ->
                indexes_empty (fst (run st ops)) /\
                filter channel_notice (snd (run st ops)) = []).
  { induction ops as [|o ops IH]; intros st E; simpl; [split; [exact E | reflexivity]|].
    pose proof (indexes_empty_exec st o E) as E1.
    assert (N : filter channel_notice (snd (exec st o)) = []).
    { destruct o; unfold exec; try reflexivity.
      - unfold on_direct_message. destruct saved; simpl; [|reflexivity].
        rewrite filter_app. simpl. rewrite app_nil_r.
        destruct (JsMap.get recipientId (userSockets st)); [|reflexivity].
        now apply filter_map_none.
      - rewrite on_disconnect_events. simpl. destruct E as [-> ->].
        destruct (JsMap.get (userId c) (userSockets st)); [|reflexivity].
        destruct (Nat.eqb _ 0); [|reflexivity].
        simpl. rewrite app_nil_r, cascade_snd. now apply filter_map_none. }
    destruct (exec st o) as [st1 evs1]. simpl in E1, N.
    specialize (IH st1 E1). destruct (run st1 ops) as [st2 evs2]. simpl in *.
    destruct IH as [IH1 IH2]. split; [exact IH1|].
    now rewrite filter_app, N, IH2. }
  destruct (G init) as [[H1 H2] H3]; [split; reflexivity|]. auto.
Qed.

Lemma join_members_present c g t st ms :
  JsMap.get g (communityMembers st) = Some ms ->
  members_of (fst (on_joinCommunity c g t st)) g =
  JsMap.set (userId c) (mkMember (userId c) (username c) (userImage c) online t) ms.
Proof.
  intros E. unfold members_of, on_joinCommunity. cbn [fst communityMembers].
  unfold JsMap.has. rewrite E. cbn [negb]. rewrite E.
  now rewrite JsMapFacts.get_set_same.
Qed.

(** C9. A user who is already in a community's membership map and joins
    it again leaves the map with the same size and the same keys in the
    same order; the map holds exactly one entry for the user, the snapshot
    taken at the second join. *)
Theorem rejoin_keeps_membership_size st c g t :
  reachable st ->
  is_member st g (userId c) = true ->
  let ms' := members_of (fst (exec st (JoinCommunity c g t))) g in
  JsMap.size ms' = JsMap.size (members_of st g) /\
  JsMap.keys ms' = JsMap.keys (members_of st g) /\
  JsMap.count (userId c) ms' = 1 /\
  JsMap.get (userId c) ms' =
    Some (mkMember (userId c) (username c) (userImage c) online t).
Proof.
  intros R M. pose proof (reachable_groups_wf st R) as [_ Hin].
  unfold is_member in M. cbv zeta. cbn [exec].
  destruct (JsMap.get g (communityMembers st)) as [ms|] eqn:E.
  - rewrite (join_members_present c g t st ms E).
    unfold members_of in *. rewrite E in *.
    pose proof (Hin g ms (JsMapFacts.get_In _ _ _ E)) as ND.
    repeat split.
    + now apply JsMapFacts.size_set_present.
    + now apply JsMapFacts.keys_set_present.
    + apply JsMapFacts.count_NoDup.
      * now apply JsMapFacts.NoDup_keys_set.
      * apply JsMapFacts.has_set_same.
    + apply JsMapFacts.get_set_same.
  - unfold members_of in M. rewrite E in M. discriminate.
Qed.

(** ** Who receives an event *)

Lemma receives_ToAll st sid n p :
  receives st sid (mkEvent ToAll n p) = id_in_use st sid.
Proof.
  unfold receives, id_in_use. simpl.
  induction (io_sockets st) as [|k l IH]; simpl; [reflexivity|].
  now rewrite IH, andb_true_r.
Qed.

Lemma receives_ToSocket st sid s n p :
  receives st sid (mkEvent (ToSocket s) n p) = id_in_use st sid && String.eqb sid s.
Proof.
  unfold receives, id_in_use. simpl.
  induction (io_sockets st) as [|k l IH]; simpl; [reflexivity|].
  rewrite IH. clear IH.
  generalize (existsb (fun k0 => String.eqb (sock_id k0) sid) l) as x. intros x.
  destruct (String.eqb (sock_id k) sid) eqn:E; [|reflexivity].
  apply String.eqb_eq in E. rewrite E.
  destruct (String.eqb sid s), x; reflexivity.
Qed.

(** ** Posts *)

(** C1 (as the code has it). Whatever the outcome of the call to the posts
    API, the newPost listener leaves the state alone and emits exactly one
    newPost event carrying the post to all connections, which every open
    socket receives. *)
Theorem newPost_broadcasts_whatever_the_outcome st c post saved :
  exec st (NewPost c post saved) = (st, [mkEvent ToAll "newPost" (PJson post)]) /\
  forall sid,
    receives st sid (mkEvent ToAll "newPost" (PJson post)) = id_in_use st sid.
Proof. split; [reflexivity | intros sid; apply receives_ToAll]. Qed.

(** C1 fails as stated: with Alice and Bob connected, a post of Alice whose
    persistence call fails is still delivered to Bob's socket. *)
Lemma newPost_failure_is_broadcast :
  delivered Fixtures.one_each "b1"
    (snd (exec Fixtures.one_each (NewPost Fixtures.a1 "hello" false)))
  = [mkEvent ToAll "newPost" (PJson "hello")].
Proof. vm_compute. reflexivity. Qed.

(** ** Connecting *)

(** C5 (as the code has it). Every connect, first handle or not, stores a
    presence record with status online and lastActive set to the time of
    the connect, adds the handle to the user's handle set, and emits
    exactly one presence event (online) to all connections. *)
Theorem connect_always_announces_online st c t1 t2 :
  JsMap.get (userId c) (activeUsers (fst (exec st (Connect c t1 t2)))) =
    Some (mkPresence (userId c) (username c) (userImage c) online t1 (c_id c)) /\
  handles (fst (exec st (Connect c t1 t2))) (userId c) =
    JsSet.add (c_id c) (handles st (userId c)) /\
  snd (exec st (Connect c t1 t2)) =
    [mkEvent ToAll "user:status" (PUserStatus (userId c) online t2)].
Proof.
  unfold exec. split; [|split].
  - simpl. apply JsMapFacts.get_set_same.
  - unfold handles at 1. rewrite on_connection_handles. reflexivity.
  - reflexivity.
Qed.

(** C5 fails as stated: Alice is online with one handle; connecting a
    second handle emits another online presence event. *)
Lemma second_connect_announces_again :
  is_online Fixtures.alice_alone "A" = true /\
  handles Fixtures.alice_alone "A" = ["a1"] /\
  snd (exec Fixtures.alice_alone (Connect Fixtures.a2 3 4)) =
    [mkEvent ToAll "user:status" (PUserStatus "A" online 4)].
Proof. vm_compute. repeat split. Qed.

(** ** Direct messages: failure *)

(** C7 (as the code has it). When the persistence call of a direct message
    fails, no state changes and the only event is one error event emitted
    on the sending socket; an open socket receives it exactly when it is
    that socket. *)
Theorem direct_failure_reports_to_sending_socket st c recipientId message :
  exec st (DirectMessage c recipientId message None) =
    (st, [mkEvent (ToSocket (c_id c)) "error" (PError "Failed to send message")]) /\
  forall sid,
    receives st sid (mkEvent (ToSocket (c_id c)) "error" (PError "Failed to send message"))
    = id_in_use st sid && String.eqb sid (c_id c).
Proof. split; [reflexivity | intros sid; apply receives_ToSocket]. Qed.

(** C7 fails as stated: Alice has two open handles, both in her user room;
    when the message sent from the first fails to persist, the second
    receives nothing, so the error does not go to scope User(sender). *)
Lemma direct_failure_skips_other_handle :
  handles Fixtures.two_each "A" = ["a1"; "a2"] /\
  delivered Fixtures.two_each "a2"
    (snd (exec Fixtures.two_each (DirectMessage Fixtures.a1 "B" "hi" None))) = [].
Proof. vm_compute. split; reflexivity. Qed.

(** ** Typing *)

Lemma has_delete_false {V} (k k' : string) (m : JsMap.t V) :
  JsMap.has k m = false -> JsMap.has k (JsMap.delete k' m) = false.
Proof.
  intros H. destruct (JsMap.has k (JsMap.delete k' m)) eqn:E; [|reflexivity].
  apply JsMapFacts.has_In_keys in E. unfold JsMap.keys, JsMap.delete in E.
  apply in_map_iff in E. destruct E as [e [<- He]]. apply filter_In in He.
  assert (T : JsMap.has (fst e) m = true).
  { apply JsMapFacts.has_In_keys. apply in_map. tauto. }
  congruence.
Qed.

Lemma exec_keeps_not_typing st o ch u :
  is_typing st ch u = false -> is_typing (fst (exec st o)) ch u = false.
Proof.
  unfold is_typing. destruct o; unfold exec; try (intros H; exact H).
  - unfold on_direct_message. destruct saved; intros H; exact H.
  - rewrite on_disconnect_typingUsers. simpl. intros H.
    destruct (JsMap.get (userId c) (userSockets st)); [|exact H].
    destruct (Nat.eqb _ 0); [|exact H].
    rewrite cascade_get. destruct (JsMap.get ch (typingUsers st)) as [m|]; [|reflexivity].
    destruct (JsMap.has (userId c) m); [now apply has_delete_false | exact H].
Qed.

Lemma exec_never_reports_typing st o : filter typing_started (snd (exec st o)) = [].
Proof.
  destruct o; unfold exec; try reflexivity.
  - unfold on_direct_message. destruct saved; simpl; [|reflexivity].
    rewrite filter_app. simpl. rewrite app_nil_r.
    destruct (JsMap.get recipientId (userSockets st)); [|reflexivity].
    now apply filter_map_none.
  - rewrite on_disconnect_events.
    destruct (JsMap.get _ _); [|reflexivity].
    destruct (Nat.eqb _ 0); [|reflexivity].
    cbn [filter typing_started ev_payload]. rewrite !filter_app, !cascade_snd.
    now rewrite !filter_map_none.
Qed.

Lemma exec_error_events st o :
  named "error" (snd (exec st o)) =
  match o with
  | DirectMessage c _ _ None =>
      [mkEvent (ToSocket (c_id c)) "error" (PError "Failed to send message")]
  | _ => []
  end.
Proof.
  unfold named. destruct o; unfold exec; try reflexivity.
  - unfold on_direct_message. destruct saved; [|reflexivity].
    cbn [snd]. rewrite filter_app.
    destruct (JsMap.get recipientId (userSockets st)); [|reflexivity].
    now rewrite filter_map_none.
  - rewrite on_disconnect_events.
    destruct (JsMap.get _ _); [|reflexivity].
    destruct (Nat.eqb _ 0); [|reflexivity].
    cbn [filter ev_name]. change (String.eqb "user:status" "error") with false.
    cbv iota. rewrite !filter_app, !cascade_snd.
    now rewrite !filter_map_none.
Qed.

(** C8 (as the code has it). No listener sets typing state: a user who is
    not in a channel's typing set before an operation is not in it after,
    whatever the operation; no operation emits an event that reports a user
    as typing; a command for which no listener is registered changes no
    state and emits nothing; and no operation answers with an error event,
    except a direct message whose persistence call failed. *)
Theorem no_operation_marks_a_user_typing st o ch u :
  is_typing st ch u = false ->
  is_typing (fst (exec st o)) ch u = false /\
  filter typing_started (snd (exec st o)) = [] /\
  (forall c name arg, exec st (Other c name arg) = (st, [])) /\
  named "error" (snd (exec st o)) =
    match o with
    | DirectMessage c _ _ None =>
        [mkEvent (ToSocket (c_id c)) "error" (PError "Failed to send message")]
    | _ => []
    end.
Proof.
  intros H. split; [now apply exec_keeps_not_typing|].
  split; [apply exec_never_reports_typing|].
  split; [reflexivity | apply exec_error_events].
Qed.

Lemma no_operation_marks_a_user_typing_witness :
  is_typing Fixtures.alice_alone "general" "A" = false /\
  is_typing (fst (exec Fixtures.alice_alone (Other Fixtures.a1 "typing" "general")))
            "general" "A" = false.
Proof.
  split; [reflexivity|].
  exact (proj1 (no_operation_marks_a_user_typing Fixtures.alice_alone
                  (Other Fixtures.a1 "typing" "general") "general" "A" eq_refl)).
Defined.

(** C8 fails as stated: Alice is online, yet no operation at all puts her
    into the typing set of a channel. *)
Lemma online_user_cannot_start_typing :
  is_online Fixtures.alice_alone "A" = true /\
  ~ exists o, is_typing (fst (exec Fixtures.alice_alone o)) "general" "A" = true.
Proof.
  split; [reflexivity|]. intros [o H].
  rewrite exec_keeps_not_typing in H; [discriminate | reflexivity].
Qed.

(** ** Disconnecting twice *)

Lemma state_ext (s1 s2 : state) :
  activeUsers s1 = activeUsers s2 -> userSockets s1 = userSockets s2 ->
  communityMembers s1 = communityMembers s2 -> channelMembers s1 = channelMembers s2 ->
  typingUsers s1 = typingUsers s2 -> io_sockets s1 = io_sockets s2 -> s1 = s2.
Proof. destruct s1, s2; simpl; intros; subst; reflexivity. Qed.

Lemma set_set {V} (k : string) (v w : V) (m : JsMap.t V) :
  JsMap.set k v (JsMap.set k w m) = JsMap.set k v m.
Proof.
  induction m as [|[k' v'] m IH]; simpl.
  - now rewrite String.eqb_refl.
  - destruct (String.eqb k k') eqn:E; simpl; rewrite E; [reflexivity | now rewrite IH].
Qed.

Lemma set_get {V} (k : string) (v : V) (m : JsMap.t V) :
  JsMap.get k m = Some v -> JsMap.set k v m = m.
Proof.
  induction m as [|[k' v'] m IH]; simpl; [discriminate|].
  destruct (String.eqb k k') eqn:E.
  - intros [= ->]. reflexivity.
  - intros H. now rewrite IH.
Qed.

Lemma sio_close_twice c st : sio_close c (sio_close c st) = sio_close c st.
Proof.
  unfold sio_close. simpl. f_equal.
  induction (io_sockets st) as [|k l IH]; simpl; [reflexivity|].
  destruct (negb (String.eqb (sock_id k) (c_id c))) eqn:E; simpl; [|exact IH].
  rewrite E. now rewrite IH.
Qed.

Lemma close_after_disconnect c t1 t2 st :
  sio_close c (fst (on_disconnect c t1 t2 (sio_close c st))) =
  fst (on_disconnect c t1 t2 (sio_close c st)).
Proof.
  apply state_ext; try reflexivity.
  rewrite on_disconnect_io_sockets.
  change (io_sockets (sio_close c ?s)) with
    (filter (fun k => negb (String.eqb (sock_id k) (c_id c))) (io_sockets s)).
  rewrite on_disconnect_io_sockets.
  exact (f_equal io_sockets (sio_close_twice c st)).
Qed.

Lemma on_disconnect_nobody c t1 t2 st :
  JsMap.get (userId c) (userSockets st) = None -> on_disconnect c t1 t2 st = (st, []).
Proof. intros H. unfold on_disconnect. now rewrite H. Qed.

Lemma on_disconnect_not_last c t1 t2 st sids :
  JsMap.get (userId c) (userSockets st) = Some sids ->
  Nat.eqb (JsSet.size (JsSet.delete (c_id c) sids)) 0 = false ->
  on_disconnect c t1 t2 st =
  (mkState (activeUsers st)
           (JsMap.set (userId c) (JsSet.delete (c_id c) sids) (userSockets st))
           (communityMembers st) (channelMembers st) (typingUsers st) (io_sockets st),
   []).
Proof. intros H Hz. unfold on_disconnect. rewrite H. cbv zeta. rewrite Hz. reflexivity. Qed.

Lemma offline_after_last c t1 t2 st sids :
  JsMap.get (userId c) (userSockets st) = Some sids ->
  Nat.eqb (JsSet.size (JsSet.delete (c_id c) sids)) 0 = true ->
  is_online (fst (on_disconnect c t1 t2 st)) (userId c) = false.
Proof.
  intros H Hz. unfold is_online. rewrite on_disconnect_activeUsers, H, Hz.
  destruct (JsMap.get (userId c) (activeUsers st)) eqn:E.
  - now rewrite JsMapFacts.get_set_same.
  - now rewrite E.
Qed.

(** The listener on its own, were it run a second time for the same
    handle: it changes no handle set, no membership map, no typing set, no
    open socket and nobody's online status; with the user's handle set
    empty it emits the offline presence event once more. *)
Lemma second_disconnect_changes_no_index st c t1 t2 t3 t4 :
  let st1 := fst (exec st (Disconnect c t1 t2)) in
  let st2 := fst (exec st1 (Disconnect c t3 t4)) in
  let evs := snd (exec st1 (Disconnect c t3 t4)) in
  userSockets st2 = userSockets st1 /\
  communityMembers st2 = communityMembers st1 /\
  channelMembers st2 = channelMembers st1 /\
  typingUsers st2 = typingUsers st1 /\
  io_sockets st2 = io_sockets st1 /\
  (forall u, is_online st2 u = is_online st1 u) /\
  match JsMap.get (userId c) (userSockets st1) with
  | Some [] => evs = [mkEvent ToAll "user:status" (PUserStatus (userId c) offline t4)]
  | _ => st2 = st1 /\ evs = []
  end.
Proof.
  cbv zeta. unfold exec. rewrite close_after_disconnect.
  set (S := sio_close c st). set (st1 := fst (on_disconnect c t1 t2 S)).
  assert (Hus1 : JsMap.get (userId c) (userSockets st1) =
                 option_map (JsSet.delete (c_id c)) (JsMap.get (userId c) (userSockets S))).
  { subst st1. rewrite on_disconnect_userSockets.
    destruct (JsMap.get (userId c) (userSockets S)) eqn:E; simpl.
    - apply JsMapFacts.get_set_same.
    - exact E. }
  destruct (JsMap.get (userId c) (userSockets S)) as [sids|] eqn:Es; simpl in Hus1.
  - destruct (Nat.eqb (JsSet.size (JsSet.delete (c_id c) sids)) 0) eqn:Ez.
    + assert (Ed : JsSet.delete (c_id c) sids = []).
      { destruct (JsSet.delete (c_id c) sids); [reflexivity | discriminate]. }
      assert (Ez' : Nat.eqb (JsSet.size (JsSet.delete (c_id c) (JsSet.delete (c_id c) sids))) 0 = true).
      { now rewrite JsSetFacts.delete_delete. }
      rewrite on_disconnect_userSockets, on_disconnect_communityMembers,
        on_disconnect_channelMembers, on_disconnect_typingUsers,
        on_disconnect_io_sockets, on_disconnect_events.
      rewrite Hus1, Ez', JsSetFacts.delete_delete.
      assert (Ecm : communityMembers st1 =
                    fst (cascade (userId c) (community_left (userId c)) (communityMembers S))).
      { subst st1. now rewrite on_disconnect_communityMembers, Es, Ez. }
      assert (Ech : channelMembers st1 =
                    fst (cascade (userId c) (channel_left (userId c)) (channelMembers S))).
      { subst st1. now rewrite on_disconnect_channelMembers, Es, Ez. }
      assert (Ety : typingUsers st1 =
                    fst (cascade (userId c) (typing_stopped (userId c)) (typingUsers S))).
      { subst st1. now rewrite on_disconnect_typingUsers, Es, Ez. }
      rewrite Ecm, Ech, Ety, !cascade_again. cbn [fst snd app].
      rewrite <- Ecm, <- Ech, <- Ety.
      repeat split.
      * apply set_get. now rewrite Hus1.
      * intros u. unfold is_online at 1. rewrite on_disconnect_activeUsers, Hus1, Ez'.
        pose proof (offline_after_last c t1 t2 S sids Es Ez) as Off. fold st1 in Off.
        destruct (String.eqb u (userId c)) eqn:E.
        -- apply String.eqb_eq in E. subst u. rewrite Off. unfold is_online in Off.
           destruct (JsMap.get (userId c) (activeUsers st1)) eqn:Ea.
           ++ now rewrite JsMapFacts.get_set_same.
           ++ now rewrite Ea.
        -- apply String.eqb_neq in E. unfold is_online.
           destruct (JsMap.get (userId c) (activeUsers st1)); [|reflexivity].
           now rewrite JsMapFacts.get_set_other.
      * rewrite Ed. reflexivity.
    + subst st1. rewrite (on_disconnect_not_last c t1 t2 S sids Es Ez) in *.
      cbn [fst] in *.
      erewrite on_disconnect_not_last; [| exact Hus1 | now rewrite JsSetFacts.delete_delete].
      cbn [fst snd userSockets communityMembers channelMembers typingUsers io_sockets].
      rewrite JsSetFacts.delete_delete, set_set.
      repeat split.
      rewrite JsMapFacts.get_set_same.
      destruct (JsSet.delete (c_id c) sids); [discriminate | split; reflexivity].
  - subst st1. rewrite (on_disconnect_nobody c t1 t2 S Es) in *. cbn [fst] in *.
    rewrite (on_disconnect_nobody c t3 t4 S Es). rewrite Es. repeat split.
Qed.

(** ** Open sockets, their rooms and the registry *)

Lemma socket_join_ids c r l : map sock_id (socket_join c r l) = map sock_id l.
Proof.
  unfold socket_join. rewrite map_map. apply map_ext.
  intros k. destruct (String.eqb (sock_id k) (c_id c)); reflexivity.
Qed.

Lemma In_socket_join c r l k' :
  In k' (socket_join c r l) ->
  exists k, In k l /\ sock_id k' = sock_id k /\ sock_user k' = sock_user k /\
            (sock_rooms k' = sock_rooms k \/ sock_rooms k' = JsSet.add r (sock_rooms k)).
Proof.
  unfold socket_join. intros H. apply in_map_iff in H. destruct H as [k [<- H]].
  exists k. destruct (String.eqb (sock_id k) (c_id c)); simpl; auto.
Qed.

Lemma socket_join_In c r l k :
  In k l ->
  exists k', In k' (socket_join c r l) /\ sock_id k' = sock_id k /\
             sock_user k' = sock_user k.
Proof.
  intros H. unfold socket_join.
  exists (if String.eqb (sock_id k) (c_id c)
          then mkSocket (sock_id k) (sock_user k) (JsSet.add r (sock_rooms k))
          else k).
  split.
  - apply in_map_iff. exists k. auto.
  - destruct (String.eqb (sock_id k) (c_id c)); auto.
Qed.

Lemma id_in_use_In st sid : id_in_use st sid = true <-> In sid (map sock_id (io_sockets st)).
Proof.
  unfold id_in_use. rewrite existsb_exists, in_map_iff. split.
  - intros [k [H E]]. apply String.eqb_eq in E. eauto.
  - intros [k [E H]]. exists k. split; [assumption|]. now apply String.eqb_eq.
Qed.

Lemma is_open_In st c :
  is_open st c = true ->
  exists k, In k (io_sockets st) /\ sock_id k = c_id c /\ user_id (sock_user k) = userId c.
Proof.
  unfold is_open, identity_eqb. rewrite existsb_exists. intros [k [H E]].
  exists k. apply andb_true_iff in E. destruct E as [E1 E2].
  apply andb_true_iff in E2. destruct E2 as [E2 _].
  apply andb_true_iff in E2. destruct E2 as [E2 _].
  apply String.eqb_eq in E1, E2. auto.
Qed.

Lemma NoDup_map_inj {A B} (f : A -> B) (l : list A) a b :
  NoDup (map f l) -> In a l -> In b l -> f a = f b -> a = b.
Proof.
  induction l as [|x l IH]; simpl; [contradiction|].
  intros ND Ha Hb E. inversion ND as [|? ? Hx ND']; subst.
  destruct Ha as [->|Ha], Hb as [->|Hb]; auto.
  - exfalso. apply Hx. rewrite E. now apply in_map.
  - exfalso. apply Hx. rewrite <- E. now apply in_map.
Qed.

Lemma distinct_ids_filter (keep : socket -> bool) (ss : list socket) :
  NoDup (map sock_id ss) -> NoDup (map sock_id (filter keep ss)).
Proof.
  induction ss as [|x l IH]; simpl; [auto|].
  intros ND. inversion ND as [|? ? Hx ND']; subst.
  destruct (keep x); simpl; [|auto].
  constructor; [|auto]. intros H. apply Hx.
  apply in_map_iff in H. destruct H as [y [E H]]. apply filter_In in H.
  rewrite <- E. apply in_map. tauto.
Qed.

Lemma user_room_colon u : has_colon (user_room u) = true.
Proof. reflexivity. Qed.

Lemma community_room_colon g : has_colon (community_room g) = true.
Proof. reflexivity. Qed.

Lemma rooms_after_join c r l :
  has_colon r = true ->
  (forall k, In k l ->
     has_colon (sock_id k) = false /\ In (sock_id k) (sock_rooms k) /\
     forall x, In x (sock_rooms k) -> x = sock_id k \/ has_colon x = true) ->
  forall k, In k (socket_join c r l) ->
     has_colon (sock_id k) = false /\ In (sock_id k) (sock_rooms k) /\
     forall x, In x (sock_rooms k) -> x = sock_id k \/ has_colon x = true.
Proof.
  intros Hr H k' Hk'. apply In_socket_join in Hk'.
  destruct Hk' as [k [Hk [Ei [_ Er]]]]. destruct (H k Hk) as [H1 [H2 H3]].
  rewrite Ei. destruct Er as [-> | ->]; [auto|].
  split; [assumption|]. split.
  - apply JsSetFacts.In_add. now right.
  - intros x Hx. apply JsSetFacts.In_add in Hx. destruct Hx as [->|Hx]; auto.
Qed.

Lemma sockets_inv_init : sockets_inv init.
Proof.
  repeat split; try constructor; simpl; try contradiction; try discriminate.
Qed.

Lemma sockets_inv_join c g t st :
  sockets_inv st -> sockets_inv (fst (on_joinCommunity c g t st)).
Proof.
  intros [I1 [I2 [I3 I4]]]. unfold sockets_inv, on_joinCommunity. cbn [fst io_sockets userSockets].
  split; [now rewrite socket_join_ids|]. split; [|split; [|exact I4]].
  - apply rooms_after_join; [apply community_room_colon | exact I2].
  - intros u sids sid Hg Hs. destruct (I3 u sids sid Hg Hs) as [k [Hk [E1 E2]]].
    destruct (socket_join_In c (community_room g) _ k Hk) as [k' [Hk' [E1' E2']]].
    exists k'. rewrite E1', E2'. auto.
Qed.

Lemma sockets_inv_connect c t1 t2 st :
  sockets_inv st -> id_in_use st (c_id c) = false -> has_colon (c_id c) = false ->
  sockets_inv (fst (on_connection c t1 t2 (sio_open c st))).
Proof.
  intros [I1 [I2 [I3 I4]]] Fresh Valid.
  assert (J2 : forall k, In k (io_sockets (sio_open c st)) ->
     has_colon (sock_id k) = false /\ In (sock_id k) (sock_rooms k) /\
     forall x, In x (sock_rooms k) -> x = sock_id k \/ has_colon x = true).
  { simpl. intros k Hk. apply in_app_iff in Hk. destruct Hk as [Hk|[<-|[]]]; [auto|].
    simpl. split; [assumption|]. split; [auto|]. intros x [<-|[]]. auto. }
  split; [|split; [|split]].
  - cbn [fst on_connection io_sockets]. rewrite socket_join_ids. simpl.
    rewrite map_app. simpl. apply NoDup_app; [assumption | repeat constructor; intros [] |].
    intros x Hx [<-|[]]. apply id_in_use_In in Hx. congruence.
  - cbn [fst on_connection io_sockets].
    apply rooms_after_join; [apply user_room_colon | exact J2].
  - intros u sids sid Hg Hs.
    assert (exists k, In k (io_sockets (sio_open c st)) /\ sock_id k = sid /\
                      user_id (sock_user k) = u) as [k [Hk [E1 E2]]].
    { destruct (String.eqb u (userId c)) eqn:E.
      - apply String.eqb_eq in E. subst u. rewrite on_connection_handles in Hg.
        injection Hg as <-. apply JsSetFacts.In_add in Hs. destruct Hs as [->|Hs].
        + exists (mkSocket (c_id c) (c_user c) [c_id c]). simpl.
          split; [apply in_app_iff; right; now left | auto].
        + unfold handles in Hs. simpl in Hs.
          destruct (JsMap.get (userId c) (userSockets st)) as [s0|] eqn:E0; [|contradiction].
          destruct (I3 _ _ _ E0 Hs) as [k [Hk HE]]. exists k. simpl.
          split; [apply in_app_iff; now left | exact HE].
      - apply String.eqb_neq in E. rewrite on_connection_handles_other in Hg by assumption.
        destruct (I3 _ _ _ Hg Hs) as [k [Hk HE]]. exists k. simpl.
        split; [apply in_app_iff; now left | exact HE]. }
    cbn [fst on_connection io_sockets].
    destruct (socket_join_In c (user_room (userId c)) _ k Hk) as [k' [Hk' [E1' E2']]].
    exists k'. rewrite E1', E2'. auto.
  - intros u sids Hg. destruct (String.eqb u (userId c)) eqn:E.
    + apply String.eqb_eq in E. subst u. rewrite on_connection_handles in Hg.
      injection Hg as <-. apply JsSetFacts.NoDup_add. unfold handles. simpl.
      destruct (JsMap.get (userId c) (userSockets st)) eqn:E0; [eauto | constructor].
    + apply String.eqb_neq in E. rewrite on_connection_handles_other in Hg by assumption.
      eauto.
Qed.

Lemma sockets_inv_disconnect c t1 t2 st :
  sockets_inv st -> is_open st c = true ->
  sockets_inv (fst (on_disconnect c t1 t2 (sio_close c st))).
Proof.
  intros [I1 [I2 [I3 I4]]] Open. apply is_open_In in Open.
  destruct Open as [k0 [Hk0 [Ek0 Eu0]]].
  unfold sockets_inv. rewrite on_disconnect_io_sockets, on_disconnect_userSockets.
  cbn [sio_close io_sockets userSockets].
  split; [now apply distinct_ids_filter|]. split; [|split].
  - intros k Hk. apply filter_In in Hk. apply I2. tauto.
  - intros u sids sid Hg Hs.
    assert (exists sids0, JsMap.get u (userSockets st) = Some sids0 /\ In sid sids0 /\
                          (u = userId c -> sid <> c_id c)) as [sids0 [Hg0 [Hs0 Hne]]].
    { destruct (JsMap.get (userId c) (userSockets st)) as [s0|] eqn:E0.
      - destruct (String.eqb u (userId c)) eqn:E.
        + apply String.eqb_eq in E. subst u. rewrite JsMapFacts.get_set_same in Hg.
          injection Hg as <-. apply JsSetFacts.In_delete in Hs. exists s0. tauto.
        + apply String.eqb_neq in E. rewrite JsMapFacts.get_set_other in Hg by assumption.
          exists sids. tauto.
      - exists sids. repeat split; [assumption..|]. intros ->. congruence. }
    destruct (I3 _ _ _ Hg0 Hs0) as [k [Hk [E1 E2]]]. exists k.
    split; [|auto]. apply filter_In. split; [assumption|].
    apply negb_true_iff. apply String.eqb_neq. intros E.
    assert (k = k0) by (apply (NoDup_map_inj sock_id (io_sockets st)); congruence).
    subst k0. apply Hne; congruence.
  - intros u sids Hg.
    destruct (JsMap.get (userId c) (userSockets st)) as [s0|] eqn:E0; [|eauto].
    destruct (String.eqb u (userId c)) eqn:E.
    + apply String.eqb_eq in E. subst u. rewrite JsMapFacts.get_set_same in Hg.
      injection Hg as <-. apply JsSetFacts.NoDup_delete. eauto.
    + apply String.eqb_neq in E. rewrite JsMapFacts.get_set_other in Hg by assumption.
      eauto.
Qed.

Lemma sockets_inv_exec st o :
  sockets_inv st -> enabled st o = true -> sockets_inv (fst (exec st o)).
Proof.
  intros I E. destruct o; unfold exec; simpl in E; try exact I.
  - apply andb_true_iff in E. destruct E as [E1 E2].
    apply negb_true_iff in E1, E2. now apply sockets_inv_connect.
  - now apply sockets_inv_join.
  - unfold on_direct_message. destruct saved; exact I.
  - now apply sockets_inv_disconnect.
Qed.

Lemma reachable_sockets_inv st : reachable st -> sockets_inv st.
Proof.
  intros R. induction R; [exact sockets_inv_init | now apply sockets_inv_exec].
Qed.

Lemma receives_own_room st u sids sid n p :
  sockets_inv st -> JsMap.get u (userSockets st) = Some sids -> In sid sids ->
  receives st sid (mkEvent (ToRoom sid) n p) = true.
Proof.
  intros [_ [I2 [I3 _]]] Hg Hs. destruct (I3 _ _ _ Hg Hs) as [k [Hk [E _]]].
  unfold receives. apply existsb_exists. exists k. split; [assumption|].
  simpl. apply andb_true_iff. split; [now apply String.eqb_eq|].
  apply JsSetFacts.has_In. rewrite <- E. now apply I2.
Qed.

Lemma receives_other_room st u sids sid sid' n p :
  sockets_inv st -> JsMap.get u (userSockets st) = Some sids -> In sid' sids ->
  sid <> sid' ->
  receives st sid (mkEvent (ToRoom sid') n p) = false.
Proof.
  intros [_ [I2 [I3 _]]] Hg Hs N.
  destruct (receives st sid (mkEvent (ToRoom sid') n p)) eqn:R; [|reflexivity].
  exfalso. unfold receives in R. apply existsb_exists in R.
  destruct R as [k [Hk E]]. simpl in E. apply andb_true_iff in E.
  destruct E as [E1 E2]. apply String.eqb_eq in E1. apply JsSetFacts.has_In in E2.
  destruct (I2 k Hk) as [_ [_ Hr]]. destruct (Hr _ E2) as [E|E]; [congruence|].
  destruct (I3 _ _ _ Hg Hs) as [k' [Hk' [E' _]]].
  destruct (I2 k' Hk') as [V _]. congruence.
Qed.

(** ** Direct messages: success *)

(** C6 (as the code has it). When the persistence call succeeds and the
    recipient has two open handles, each of the two receives the saved
    message exactly once, no state changes, and exactly one confirmation is
    emitted, on the sending socket: an open socket receives it exactly when
    it is that socket. *)
Theorem direct_message_reaches_both_handles st c recipientId b1 b2 message m :
  reachable st ->
  is_open st c = true ->
  handles st recipientId = [b1; b2] ->
  let r := exec st (DirectMessage c recipientId message (Some m)) in
  fst r = st /\
  named "direct:message:new" (delivered st b1 (snd r)) =
    [mkEvent (ToRoom b1) "direct:message:new" (PJson m)] /\
  named "direct:message:new" (delivered st b2 (snd r)) =
    [mkEvent (ToRoom b2) "direct:message:new" (PJson m)] /\
  named "direct:message:sent" (snd r) =
    [mkEvent (ToSocket (c_id c)) "direct:message:sent" (PJson m)] /\
  forall sid,
    receives st sid (mkEvent (ToSocket (c_id c)) "direct:message:sent" (PJson m))
    = String.eqb sid (c_id c).
Proof.
  intros R Open Hh. pose proof (reachable_sockets_inv st R) as I.
  apply handles_get in Hh.
  assert (ND : NoDup [b1; b2]) by (destruct I as [_ [_ [_ I4]]]; eauto).
  assert (N : b1 <> b2).
  { inversion ND as [|? ? Hx _]; subst. intros ->. apply Hx. now left. }
  cbv zeta. unfold exec, on_direct_message. rewrite Hh. cbn [fst snd map app].
  pose proof (receives_own_room st _ _ b1 "direct:message:new" (PJson m) I Hh
                ltac:(now left)) as R11.
  pose proof (receives_own_room st _ _ b2 "direct:message:new" (PJson m) I Hh
                ltac:(right; now left)) as R22.
  pose proof (receives_other_room st _ _ b1 b2 "direct:message:new" (PJson m) I Hh
                ltac:(right; now left) N) as R12.
  pose proof (receives_other_room st _ _ b2 b1 "direct:message:new" (PJson m) I Hh
                ltac:(now left) (not_eq_sym N)) as R21.
  split; [reflexivity|]. unfold delivered, named. cbn [filter].
  rewrite R11, R22, R12, R21. clear R11 R22 R12 R21.
  split; [|split; [|split]].
  - destruct (receives st b1 _); reflexivity.
  - destruct (receives st b2 _); reflexivity.
  - reflexivity.
  - intros sid. rewrite receives_ToSocket.
    destruct (String.eqb sid (c_id c)) eqn:E; [|apply andb_false_r].
    apply String.eqb_eq in E. subst sid. rewrite andb_true_r.
    apply id_in_use_In. apply is_open_In in Open.
    destruct Open as [k [Hk [<- _]]]. now apply in_map.
Qed.

Lemma two_each_reachable : reachable Fixtures.two_each.
Proof.
  apply (admitted_reachable _ init reach_init). vm_compute. reflexivity.
Qed.

Lemma direct_message_reaches_both_handles_witness :
  is_open Fixtures.two_each Fixtures.a1 = true /\
  handles Fixtures.two_each "B" = ["b1"; "b2"] /\
  named "direct:message:new"
    (delivered Fixtures.two_each "b1"
       (snd (exec Fixtures.two_each (DirectMessage Fixtures.a1 "B" "hi" (Some "saved")))))
  = [mkEvent (ToRoom "b1") "direct:message:new" (PJson "saved")].
Proof.
  split; [reflexivity|]. split; [reflexivity|].
  apply (direct_message_reaches_both_handles Fixtures.two_each Fixtures.a1 "B" "b1" "b2"
           "hi" "saved" two_each_reachable eq_refl eq_refl).
Defined.

(** C6 fails as stated: Alice sends from her first handle; the second,
    although open and in her user room, receives no confirmation. *)
Lemma direct_confirmation_skips_other_handle :
  handles Fixtures.two_each "A" = ["a1"; "a2"] /\
  handles Fixtures.two_each "B" = ["b1"; "b2"] /\
  delivered Fixtures.two_each "a2"
    (snd (exec Fixtures.two_each (DirectMessage Fixtures.a1 "B" "hi" (Some "saved")))) = [].
Proof. vm_compute. repeat split. Qed.

(** ** Concrete runs of the group theorems *)

Lemma in_groups_reachable : reachable Fixtures.in_groups.
Proof.
  apply (admitted_reachable _ init reach_init). vm_compute. reflexivity.
Qed.

Lemma rejoin_keeps_membership_size_witness :
  is_member Fixtures.in_groups "g1" "A" = true /\
  JsMap.size (members_of (fst (exec Fixtures.in_groups (JoinCommunity Fixtures.a1 "g1" 9))) "g1")
  = JsMap.size (members_of Fixtures.in_groups "g1").
Proof.
  split; [reflexivity|].
  exact (proj1 (rejoin_keeps_membership_size Fixtures.in_groups Fixtures.a1 "g1" 9
                  in_groups_reachable eq_refl)).
Defined.

(** ** Joining a community *)

Lemma join_members c g t st :
  members_of (fst (on_joinCommunity c g t st)) g =
  JsMap.set (userId c) (mkMember (userId c) (username c) (userImage c) online t)
            (members_of st g).
Proof.
  destruct (JsMap.get g (communityMembers st)) as [ms|] eqn:E.
  - rewrite (join_members_present c g t st ms E). unfold members_of. now rewrite E.
  - unfold members_of at 2. rewrite E.
    unfold members_of, on_joinCommunity. cbn [fst communityMembers].
    unfold JsMap.has. rewrite E. cbn [negb].
    rewrite JsMapFacts.get_set_same. now rewrite JsMapFacts.get_set_same.
Qed.

Lemma join_members_other c g g' t st :
  g' <> g -> members_of (fst (on_joinCommunity c g t st)) g' = members_of st g'.
Proof.
  intros N. unfold members_of, on_joinCommunity. cbn [fst communityMembers].
  unfold JsMap.has.
  destruct (JsMap.get g (communityMembers st)) as [ms|] eqn:E; cbn [negb].
  - rewrite E. now rewrite JsMapFacts.get_set_other.
  - rewrite JsMapFacts.get_set_same.
    rewrite JsMapFacts.get_set_other by assumption.
    now rewrite JsMapFacts.get_set_other.
Qed.

Lemma has_set_other {V} (k k' : string) (v : V) (m : JsMap.t V) :
  k <> k' -> JsMap.has k (JsMap.set k' v m) = JsMap.has k m.
Proof. intros N. unfold JsMap.has. now rewrite JsMapFacts.get_set_other. Qed.

(** X1. A join stores the joiner's snapshot under the joiner's id in that
    community's map, in place if the id is there and last otherwise, so the
    joiner is a member afterwards; presence records and handle sets are
    untouched. *)
Theorem join_adds_the_joiner st c g t :
  members_of (fst (exec st (JoinCommunity c g t))) g =
    JsMap.set (userId c) (mkMember (userId c) (username c) (userImage c) online t)
              (members_of st g) /\
  is_member (fst (exec st (JoinCommunity c g t))) g (userId c) = true /\
  activeUsers (fst (exec st (JoinCommunity c g t))) = activeUsers st /\
  userSockets (fst (exec st (JoinCommunity c g t))) = userSockets st.
Proof.
  cbn [exec]. split; [apply join_members|]. split; [|split; reflexivity].
  unfold is_member. rewrite join_members. apply JsMapFacts.has_set_same.
Qed.

Lemma join_changes_no_other_membership_aux st c g t g' u' :
  g' <> g \/ u' <> userId c ->
  is_member (fst (on_joinCommunity c g t st)) g' u' = is_member st g' u'.
Proof.
  intros H. unfold is_member.
  destruct (String.eqb g' g) eqn:E.
  - apply String.eqb_eq in E. subst g'. destruct H as [H|H]; [congruence|].
    rewrite join_members. now apply has_set_other.
  - apply String.eqb_neq in E. now rewrite join_members_other.
Qed.

(** X2. A join changes nobody else's membership: for any other community,
    and for any other user of the same community, membership is as before. *)
Theorem join_changes_no_other_membership st c g t g' u' :
  g' <> g \/ u' <> userId c ->
  is_member (fst (exec st (JoinCommunity c g t))) g' u' = is_member st g' u'.
Proof.
  intros H. cbn [exec]. now apply join_changes_no_other_membership_aux.
Qed.

Lemma join_changes_no_other_membership_witness :
  is_member (fst (exec Fixtures.in_groups (JoinCommunity Fixtures.a1 "g3" 9))) "g3" "B"
  = is_member Fixtures.in_groups "g3" "B".
Proof.
  apply (join_changes_no_other_membership Fixtures.in_groups Fixtures.a1 "g3" 9 "g3" "B").
  right. discriminate.
Defined.

Lemma id_in_use_join c r st sid :
  existsb (fun k => String.eqb (sock_id k) sid) (socket_join c r (io_sockets st))
  = id_in_use st sid.
Proof.
  unfold id_in_use, socket_join. induction (io_sockets st) as [|k l IH]; [reflexivity|].
  cbn [map existsb]. rewrite IH. f_equal.
  destruct (String.eqb (sock_id k) (c_id c)); reflexivity.
Qed.

Lemma is_open_in_use st c : is_open st c = true -> id_in_use st (c_id c) = true.
Proof.
  intros H. apply is_open_In in H. destruct H as [k [Hk [E _]]].
  apply id_in_use_In. rewrite <- E. now apply in_map.
Qed.

Lemma receives_ToRoomExcept_self st r sid n p :
  receives st sid (mkEvent (ToRoomExcept r sid) n p) = false.
Proof.
  unfold receives. cbn [ev_target in_scope].
  induction (io_sockets st) as [|k l IH]; [reflexivity|]. cbn [existsb].
  rewrite IH. destruct (String.eqb (sock_id k) sid); [|reflexivity].
  cbn [negb andb]. now rewrite andb_false_r.
Qed.

Lemma values_get {V} (k : string) (v : V) (m : JsMap.t V) :
  JsMap.get k m = Some v -> In v (JsMap.values m).
Proof.
  intros H. apply JsMapFacts.get_In in H. unfold JsMap.values.
  apply in_map_iff. exists (k, v). auto.
Qed.

Lemma join_events c g t st :
  snd (on_joinCommunity c g t st) =
  [mkEvent (ToRoomExcept (community_room g) (c_id c)) "community:member:joined"
     (PMemberJoined g (userId c) (username c) (userImage c) online);
   mkEvent (ToSocket (c_id c)) "community:members"
     (PMembers g (JsMap.values (members_of (fst (on_joinCommunity c g t st)) g)))].
Proof.
  unfold members_of, on_joinCommunity. cbn [fst snd communityMembers].
  destruct (JsMap.get g _); reflexivity.
Qed.

Lemma join_io_sockets c g t st :
  io_sockets (fst (on_joinCommunity c g t st)) =
  socket_join c (community_room g) (io_sockets st).
Proof. reflexivity. Qed.

(** X3. The joining socket, when open, receives exactly one event of its
    own join: the member list of the community as it is after the join,
    which contains the joiner's new snapshot.  It does not receive its own
    member-joined announcement. *)
Theorem joiner_receives_the_member_list st c g t :
  is_open st c = true ->
  delivered (fst (exec st (JoinCommunity c g t))) (c_id c)
            (snd (exec st (JoinCommunity c g t))) =
    [mkEvent (ToSocket (c_id c)) "community:members"
       (PMembers g (JsMap.values (members_of (fst (exec st (JoinCommunity c g t))) g)))] /\
  In (mkMember (userId c) (username c) (userImage c) online t)
     (JsMap.values (members_of (fst (exec st (JoinCommunity c g t))) g)).
Proof.
  intros Open. cbn [exec]. split.
  - rewrite join_events. unfold delivered. cbn [filter].
    rewrite receives_ToRoomExcept_self, receives_ToSocket.
    unfold id_in_use. rewrite join_io_sockets.
    rewrite id_in_use_join, (is_open_in_use _ _ Open), String.eqb_refl. reflexivity.
  - rewrite join_members. apply (values_get (userId c)). apply JsMapFacts.get_set_same.
Qed.

Lemma joiner_receives_the_member_list_witness :
  is_open Fixtures.in_groups Fixtures.b1 = true /\
  In (mkMember "B" "bob" (Some "bob.png") online 9)
     (JsMap.values (members_of (fst (exec Fixtures.in_groups
                                       (JoinCommunity Fixtures.b1 "g2" 9))) "g2")).
Proof.
  split; [reflexivity|].
  exact (proj2 (joiner_receives_the_member_list Fixtures.in_groups Fixtures.b1 "g2" 9
                  eq_refl)).
Defined.

Lemma in_room_join_other c r r' st sid :
  sid <> c_id c ->
  existsb (fun k => String.eqb (sock_id k) sid && JsSet.has r' (sock_rooms k))
          (socket_join c r (io_sockets st))
  = in_room st sid r'.
Proof.
  intros N. unfold in_room, socket_join.
  induction (io_sockets st) as [|k l IH]; [reflexivity|].
  cbn [map existsb]. rewrite IH. f_equal.
  destruct (String.eqb (sock_id k) (c_id c)) eqn:E; [|reflexivity].
  apply String.eqb_eq in E. cbn [sock_id sock_rooms].
  destruct (String.eqb (sock_id k) sid) eqn:E2; [|reflexivity].
  apply String.eqb_eq in E2. congruence.
Qed.

Lemma receives_ToRoomExcept_other st r sid s n p :
  sid <> s ->
  receives st sid (mkEvent (ToRoomExcept r s) n p) = in_room st sid r.
Proof.
  intros N. unfold receives, in_room. cbn [ev_target in_scope].
  induction (io_sockets st) as [|k l IH]; [reflexivity|]. cbn [existsb].
  rewrite IH. f_equal. destruct (String.eqb (sock_id k) sid) eqn:E; [|reflexivity].
  apply String.eqb_eq in E. rewrite E.
  apply String.eqb_neq in N. rewrite N. cbn [negb]. now rewrite andb_true_r.
Qed.

(** X4. Any other open socket that is in the community's room receives
    exactly one event of a join: the member-joined announcement with the
    joiner's id, name and image. *)
Theorem join_is_announced_to_room_peers st c g t sid :
  sid <> c_id c ->
  in_room st sid (community_room g) = true ->
  delivered (fst (exec st (JoinCommunity c g t))) sid
            (snd (exec st (JoinCommunity c g t))) =
    [mkEvent (ToRoomExcept (community_room g) (c_id c)) "community:member:joined"
       (PMemberJoined g (userId c) (username c) (userImage c) online)].
Proof.
  intros N R. cbn [exec]. rewrite join_events. unfold delivered. cbn [filter].
  rewrite receives_ToRoomExcept_other by assumption.
  rewrite receives_ToSocket.
  pose proof N as N'. apply String.eqb_neq in N'. rewrite N', andb_false_r.
  unfold in_room. rewrite join_io_sockets.
  rewrite in_room_join_other by assumption.
  now rewrite R.
Qed.

Lemma join_is_announced_to_room_peers_witness :
  in_room Fixtures.in_groups "b1" (community_room "g1") = true /\
  delivered (fst (exec Fixtures.in_groups (JoinCommunity Fixtures.a1 "g1" 9))) "b1"
            (snd (exec Fixtures.in_groups (JoinCommunity Fixtures.a1 "g1" 9))) =
    [mkEvent (ToRoomExcept (community_room "g1") "a1") "community:member:joined"
       (PMemberJoined "g1" "A" "alice" None online)].
Proof.
  split; [reflexivity|].
  apply (join_is_announced_to_room_peers Fixtures.in_groups Fixtures.a1 "g1" 9 "b1");
    [discriminate | reflexivity].
Defined.

Lemma in_room_join_self c r st :
  is_open st c = true ->
  existsb (fun k => String.eqb (sock_id k) (c_id c) && JsSet.has r (sock_rooms k))
          (socket_join c r (io_sockets st)) = true.
Proof.
  intros Open. apply is_open_In in Open. destruct Open as [k [Hk [E _]]].
  apply existsb_exists.
  exists (mkSocket (sock_id k) (sock_user k) (JsSet.add r (sock_rooms k))). split.
  - unfold socket_join. apply in_map_iff. exists k. split; [|assumption].
    apply String.eqb_eq in E. now rewrite E.
  - cbn [sock_id sock_rooms]. apply andb_true_iff. split; [now apply String.eqb_eq|].
    apply JsSetFacts.has_In. apply JsSetFacts.In_add. now left.
Qed.

(** X5. After a join the joining socket, when open, is in the community's
    room, so it receives whatever is later emitted to that room. *)
Theorem joiner_enters_the_room st c g t n p :
  is_open st c = true ->
  in_room (fst (exec st (JoinCommunity c g t))) (c_id c) (community_room g) = true /\
  receives (fst (exec st (JoinCommunity c g t))) (c_id c)
           (mkEvent (ToRoom (community_room g)) n p) = true.
Proof.
  intros Open. cbn [exec]. unfold in_room, receives, on_joinCommunity.
  cbn [fst io_sockets ev_target in_scope]. split; now apply in_room_join_self.
Qed.

Lemma joiner_enters_the_room_witness :
  is_open Fixtures.in_groups Fixtures.b1 = true /\
  in_room (fst (exec Fixtures.in_groups (JoinCommunity Fixtures.b1 "g2" 9))) "b1"
          (community_room "g2") = true.
Proof.
  split; [reflexivity|].
  exact (proj1 (joiner_enters_the_room Fixtures.in_groups Fixtures.b1 "g2" 9
                  "community:member:left" (PMemberLeft "g2" "A") eq_refl)).
Defined.

(** ** Connecting and disconnecting: what is left alone *)

Lemma has_delete_other {V} (k k' : string) (m : JsMap.t V) :
  k <> k' -> JsMap.has k (JsMap.delete k' m) = JsMap.has k m.
Proof.
  intros N. unfold JsMap.has, JsMap.delete.
  induction m as [|[k2 v2] m IH]; [reflexivity|]. cbn [filter fst].
  destruct (String.eqb k' k2) eqn:E; cbn [negb JsMap.get].
  - apply String.eqb_eq in E. subst k2. apply String.eqb_neq in N. now rewrite N.
  - destruct (String.eqb k k2); [reflexivity | exact IH].
Qed.

Lemma cascade_other_member {V} (u u' g : string) notify (m : JsMap.t (JsMap.t V)) :
  u' <> u ->
  match JsMap.get g (fst (cascade u notify m)) with
  | Some ms => JsMap.has u' ms
  | None => false
  end =
  match JsMap.get g m with Some ms => JsMap.has u' ms | None => false end.
Proof.
  intros N. rewrite cascade_get. destruct (JsMap.get g m) as [ms|]; [|reflexivity].
  destruct (JsMap.has u ms); [now apply has_delete_other | reflexivity].
Qed.

Lemma is_member_get st g u :
  is_member st g u =
  match JsMap.get g (communityMembers st) with
  | Some ms => JsMap.has u ms
  | None => false
  end.
Proof. unfold is_member, members_of. now destruct (JsMap.get g _). Qed.

Lemma disconnect_leaves_other_users_aux st c t1 t2 u' g :
  u' <> userId c ->
  handles (fst (exec st (Disconnect c t1 t2))) u' = handles st u' /\
  JsMap.get u' (activeUsers (fst (exec st (Disconnect c t1 t2)))) =
    JsMap.get u' (activeUsers st) /\
  is_member (fst (exec st (Disconnect c t1 t2))) g u' = is_member st g u'.
Proof.
  intros N. cbn [exec]. rewrite !is_member_get. unfold handles.
  rewrite on_disconnect_userSockets, on_disconnect_activeUsers,
    on_disconnect_communityMembers.
  cbn [sio_close userSockets activeUsers communityMembers].
  destruct (JsMap.get (userId c) (userSockets st)) as [sids|]; [|auto].
  rewrite JsMapFacts.get_set_other by assumption.
  destruct (Nat.eqb _ 0); [|auto].
  split; [reflexivity|]. split.
  - destruct (JsMap.get (userId c) (activeUsers st)); [|reflexivity].
    now apply JsMapFacts.get_set_other.
  - now apply cascade_other_member.
Qed.

(** X6. A disconnect, last handle or not, leaves every other user as they
    were: same handle set, same presence record, same memberships. *)
Theorem disconnect_leaves_other_users st c t1 t2 u' g :
  u' <> userId c ->
  handles (fst (exec st (Disconnect c t1 t2))) u' = handles st u' /\
  JsMap.get u' (activeUsers (fst (exec st (Disconnect c t1 t2)))) =
    JsMap.get u' (activeUsers st) /\
  is_member (fst (exec st (Disconnect c t1 t2))) g u' = is_member st g u'.
Proof. exact (disconnect_leaves_other_users_aux st c t1 t2 u' g). Qed.

Lemma disconnect_leaves_other_users_witness :
  is_member (fst (exec Fixtures.in_groups (Disconnect Fixtures.a1 9 10))) "g1" "B"
  = is_member Fixtures.in_groups "g1" "B".
Proof.
  apply (disconnect_leaves_other_users Fixtures.in_groups Fixtures.a1 9 10 "B" "g1").
  discriminate.
Defined.

(** X7. Closing one handle of a user who has another one emits nothing and
    leaves presence records and memberships as they are; only the handle
    is removed from the user's set. *)
Theorem disconnect_with_other_handle_is_silent st c t1 t2 sid :
  In sid (handles st (userId c)) -> sid <> c_id c ->
  snd (exec st (Disconnect c t1 t2)) = [] /\
  handles (fst (exec st (Disconnect c t1 t2))) (userId c) =
    JsSet.delete (c_id c) (handles st (userId c)) /\
  activeUsers (fst (exec st (Disconnect c t1 t2))) = activeUsers st /\
  communityMembers (fst (exec st (Disconnect c t1 t2))) = communityMembers st.
Proof.
  intros Hin N. cbn [exec]. unfold handles in *.
  destruct (JsMap.get (userId c) (userSockets st)) as [sids|] eqn:E; [|contradiction].
  assert (Hz : Nat.eqb (JsSet.size (JsSet.delete (c_id c) sids)) 0 = false).
  { assert (H : In sid (JsSet.delete (c_id c) sids)) by (apply JsSetFacts.In_delete; auto).
    destruct (JsSet.delete (c_id c) sids); [contradiction | reflexivity]. }
  rewrite (on_disconnect_not_last c t1 t2 (sio_close c st) sids E Hz).
  cbn [fst snd userSockets activeUsers communityMembers sio_close].
  rewrite JsMapFacts.get_set_same. auto.
Qed.

Lemma disconnect_with_other_handle_is_silent_witness :
  In "a2" (handles Scenes.shared_group "A") /\
  snd (exec Scenes.shared_group (Disconnect Fixtures.a1 9 10)) = [].
Proof.
  split; [right; left; reflexivity|].
  apply (disconnect_with_other_handle_is_silent Scenes.shared_group Fixtures.a1 9 10 "a2").
  - right. left. reflexivity.
  - discriminate.
Defined.

Lemma reachable_indexes_empty st : reachable st -> indexes_empty st.
Proof.
  apply reachable_invariant; [split; reflexivity | exact indexes_empty_exec].
Qed.

(** X8. When the only handle of a user closes, the events are, in this
    order: the offline presence event to all connections, then one
    member-left event per community holding the user, in the insertion
    order of the community index.  The presence record keeps id, name,
    image and socket id; its status becomes offline and lastActive the time
    of the disconnect. *)
Theorem last_disconnect_events_in_order st c t1 t2 :
  reachable st ->
  handles st (userId c) = [c_id c] ->
  snd (exec st (Disconnect c t1 t2)) =
    mkEvent ToAll "user:status" (PUserStatus (userId c) offline t2)
      :: map (community_left (userId c)) (communities_of st (userId c)) /\
  JsMap.get (userId c) (activeUsers (fst (exec st (Disconnect c t1 t2)))) =
    match JsMap.get (userId c) (activeUsers st) with
    | Some p => Some (mkPresence (p_id p) (p_name p) (p_image p) offline t1 (p_socketId p))
    | None => None
    end /\
  handles (fst (exec st (Disconnect c t1 t2))) (userId c) = [].
Proof.
  intros R Hh. apply handles_get in Hh.
  destruct (reachable_indexes_empty st R) as [Ech Ety].
  cbn [exec]. unfold handles.
  rewrite on_disconnect_events, on_disconnect_activeUsers, on_disconnect_userSockets.
  cbn [sio_close userSockets activeUsers communityMembers channelMembers typingUsers].
  rewrite Hh, delete_single, Ech, Ety. cbn [JsSet.size length Nat.eqb cascade snd].
  rewrite !app_nil_r, cascade_snd, JsMapFacts.get_set_same.
  split; [reflexivity|]. split; [|reflexivity].
  destruct (JsMap.get (userId c) (activeUsers st)) eqn:E.
  - apply JsMapFacts.get_set_same.
  - exact E.
Qed.

Lemma last_disconnect_events_in_order_witness :
  handles Fixtures.in_groups "A" = ["a1"] /\
  snd (exec Fixtures.in_groups (Disconnect Fixtures.a1 9 10)) =
    mkEvent ToAll "user:status" (PUserStatus "A" offline 10)
      :: map (community_left "A") (communities_of Fixtures.in_groups "A").
Proof.
  split; [reflexivity|].
  exact (proj1 (last_disconnect_events_in_order Fixtures.in_groups Fixtures.a1 9 10
                  in_groups_reachable eq_refl)).
Defined.

Lemma cascade_not_member u notify (cm : JsMap.t (JsMap.t member)) g :
  match JsMap.get g (fst (cascade u notify cm)) with
  | Some ms => JsMap.has u ms
  | None => false
  end = false.
Proof.
  destruct (JsMap.get g (fst (cascade u notify cm))) as [ms|] eqn:E; [|reflexivity].
  now apply cascade_has_after in E.
Qed.

(** X9. Membership does not survive a full disconnect: after a user's only
    handle has closed and the user connects again, on any socket, the user
    is online again but a member of no community. *)
Theorem reconnect_requires_rejoin st c c' t1 t2 t3 t4 g :
  handles st (userId c) = [c_id c] ->
  userId c' = userId c ->
  let st' := fst (exec (fst (exec st (Disconnect c t1 t2))) (Connect c' t3 t4)) in
  is_member st' g (userId c) = false /\ is_online st' (userId c) = true /\
  handles st' (userId c) = [c_id c'].
Proof.
  intros Hh Eu. cbv zeta. apply handles_get in Hh. split; [|split].
  - rewrite is_member_get. cbn [exec on_connection fst communityMembers sio_open].
    rewrite on_disconnect_communityMembers.
    cbn [sio_close userSockets communityMembers].
    rewrite Hh, delete_single. cbn [JsSet.size length Nat.eqb].
    apply cascade_not_member.
  - unfold is_online. cbn [exec on_connection fst activeUsers]. rewrite Eu.
    now rewrite JsMapFacts.get_set_same.
  - unfold handles at 1. cbn [exec]. rewrite <- Eu, on_connection_handles.
    unfold handles. cbn [sio_open userSockets]. rewrite Eu.
    rewrite on_disconnect_userSockets. cbn [sio_close userSockets].
    rewrite Hh, delete_single, JsMapFacts.get_set_same. reflexivity.
Qed.

Lemma reconnect_requires_rejoin_witness :
  handles Fixtures.in_groups "A" = ["a1"] /\
  is_member Fixtures.in_groups "g1" "A" = true /\
  is_member (fst (exec (fst (exec Fixtures.in_groups (Disconnect Fixtures.a1 9 10)))
                       (Connect Fixtures.a2 11 12))) "g1" "A" = false.
Proof.
  split; [reflexivity|]. split; [reflexivity|].
  exact (proj1 (reconnect_requires_rejoin Fixtures.in_groups Fixtures.a1 Fixtures.a2
                  9 10 11 12 "g1" eq_refl eq_refl)).
Defined.

(** X10. A connect leaves every community map as it is and every other
    user's handle set and presence record as they are. *)
Theorem connect_leaves_other_users st c t1 t2 u' :
  u' <> userId c ->
  handles (fst (exec st (Connect c t1 t2))) u' = handles st u' /\
  JsMap.get u' (activeUsers (fst (exec st (Connect c t1 t2)))) =
    JsMap.get u' (activeUsers st) /\
  communityMembers (fst (exec st (Connect c t1 t2))) = communityMembers st.
Proof.
  intros N. cbn [exec]. unfold handles.
  rewrite on_connection_handles_other by assumption.
  cbn [on_connection fst activeUsers communityMembers sio_open userSockets].
  rewrite JsMapFacts.get_set_other by assumption. auto.
Qed.

Lemma connect_leaves_other_users_witness :
  handles (fst (exec Fixtures.one_each (Connect Fixtures.a2 5 6))) "B"
  = handles Fixtures.one_each "B".
Proof.
  apply (connect_leaves_other_users Fixtures.one_each Fixtures.a2 5 6 "B").
  discriminate.
Defined.

(** ** Direct messages to a user without handles *)

(** X11. A saved direct message to a recipient with no handle (never
    connected, or all handles closed) is delivered to nobody: the only
    event is the confirmation on the sending socket, and no state changes. *)
Theorem direct_message_to_absent_recipient st c recipientId message m :
  handles st recipientId = [] ->
  exec st (DirectMessage c recipientId message (Some m)) =
    (st, [mkEvent (ToSocket (c_id c)) "direct:message:sent" (PJson m)]).
Proof.
  intros H. cbn [exec on_direct_message]. unfold handles in H.
  destruct (JsMap.get recipientId (userSockets st)); [subst|]; reflexivity.
Qed.

Lemma direct_message_to_absent_recipient_witness :
  handles Scenes.alice_gone "A" = [] /\
  exec Scenes.alice_gone (DirectMessage Fixtures.b1 "A" "hi" (Some "saved")) =
    (Scenes.alice_gone, [mkEvent (ToSocket "b1") "direct:message:sent" (PJson "saved")]).
Proof.
  split; [reflexivity|].
  apply (direct_message_to_absent_recipient Scenes.alice_gone Fixtures.b1 "A" "hi" "saved").
  reflexivity.
Defined.

(** ** The registry and the open sockets *)

Lemma handles_after_connect c t1 t2 st u :
  incl (handles st u) (handles (fst (on_connection c t1 t2 (sio_open c st))) u).
Proof.
  intros x Hx. unfold handles at 1. destruct (String.eqb u (userId c)) eqn:E.
  - apply String.eqb_eq in E. subst u. rewrite on_connection_handles.
    apply JsSetFacts.In_add. now right.
  - apply String.eqb_neq in E. now rewrite on_connection_handles_other.
Qed.

Lemma open_registered_exec st o : open_registered st -> open_registered (fst (exec st o)).
Proof.
  intros I. destruct o; unfold exec; try exact I.
  - intros k' Hk'. cbn [on_connection fst io_sockets] in Hk'.
    apply In_socket_join in Hk'. destruct Hk' as [k [Hk [Ei [Eu _]]]].
    rewrite Ei, Eu. cbn [sio_open io_sockets] in Hk. apply in_app_iff in Hk.
    destruct Hk as [Hk|[<-|[]]].
    + apply handles_after_connect. now apply I.
    + cbn [sock_id sock_user]. unfold handles.
      change (user_id (c_user c)) with (userId c).
      rewrite on_connection_handles. apply JsSetFacts.In_add. now left.
  - intros k' Hk'. rewrite join_io_sockets in Hk'.
    apply In_socket_join in Hk'. destruct Hk' as [k [Hk [Ei [Eu _]]]].
    rewrite Ei, Eu. now apply I.
  - unfold on_direct_message. destruct saved; exact I.
  - intros k Hk. rewrite on_disconnect_io_sockets in Hk. cbn [sio_close io_sockets] in Hk.
    apply filter_In in Hk. destruct Hk as [Hk Hne].
    apply negb_true_iff, String.eqb_neq in Hne. specialize (I k Hk).
    unfold handles in *. rewrite on_disconnect_userSockets. cbn [sio_close userSockets].
    destruct (JsMap.get (userId c) (userSockets st)) as [sids|] eqn:E; [|exact I].
    destruct (String.eqb (user_id (sock_user k)) (userId c)) eqn:E2.
    + apply String.eqb_eq in E2. rewrite E2 in *. rewrite JsMapFacts.get_set_same.
      rewrite E in I. apply JsSetFacts.In_delete. auto.
    + apply String.eqb_neq in E2. now rewrite JsMapFacts.get_set_other.
Qed.

Lemma in_user_room_exec st o : in_user_room st -> in_user_room (fst (exec st o)).
Proof.
  intros I. destruct o; unfold exec; try exact I.
  - intros k' Hk'. cbn [on_connection fst io_sockets sio_open] in Hk'.
    unfold socket_join in Hk'. apply in_map_iff in Hk'. destruct Hk' as [k [<- Hk]].
    apply in_app_iff in Hk. destruct Hk as [Hk|[<-|[]]].
    + specialize (I k Hk). destruct (String.eqb (sock_id k) (c_id c)); [|exact I].
      cbn [sock_user sock_rooms]. apply JsSetFacts.In_add. now right.
    + cbn [sock_id]. rewrite String.eqb_refl. cbn [sock_user sock_rooms].
      apply JsSetFacts.In_add. now left.
  - intros k' Hk'. rewrite join_io_sockets in Hk'.
    unfold socket_join in Hk'. apply in_map_iff in Hk'. destruct Hk' as [k [<- Hk]].
    specialize (I k Hk). destruct (String.eqb (sock_id k) (c_id c)); [|exact I].
    cbn [sock_user sock_rooms]. apply JsSetFacts.In_add. now right.
  - unfold on_direct_message. destruct saved; exact I.
  - intros k Hk. rewrite on_disconnect_io_sockets in Hk. cbn [sio_close io_sockets] in Hk.
    apply filter_In in Hk. now apply I.
Qed.

Lemma reachable_open_registered st : reachable st -> open_registered st.
Proof.
  apply reachable_invariant; [intros k [] | exact open_registered_exec].
Qed.

Lemma reachable_in_user_room st : reachable st -> in_user_room st.
Proof.
  apply reachable_invariant; [intros k [] | exact in_user_room_exec].
Qed.

Lemma open_for_In st sid u :
  open_for st sid u = true <->
  exists k, In k (io_sockets st) /\ sock_id k = sid /\ user_id (sock_user k) = u.
Proof.
  unfold open_for. rewrite existsb_exists. split.
  - intros [k [Hk E]]. apply andb_true_iff in E. destruct E as [E1 E2].
    apply String.eqb_eq in E1, E2. eauto.
  - intros [k [Hk [E1 E2]]]. exists k. split; [assumption|].
    apply andb_true_iff. split; now apply String.eqb_eq.
Qed.

(** X12. In every reachable state the registry holds exactly the open
    sockets: [sid] is in the handle set of user [u] if and only if a socket
    with id [sid] is open for [u].  No closed socket stays behind and no
    open socket is missing. *)
Theorem registry_holds_exactly_the_open_sockets st sid u :
  reachable st ->
  JsSet.has sid (handles st u) = open_for st sid u.
Proof.
  intros R. pose proof (reachable_sockets_inv st R) as [_ [_ [I3 _]]].
  pose proof (reachable_open_registered st R) as O.
  destruct (open_for st sid u) eqn:E.
  - apply open_for_In in E. destruct E as [k [Hk [<- <-]]].
    apply JsSetFacts.has_In. now apply O.
  - destruct (JsSet.has sid (handles st u)) eqn:H; [|reflexivity].
    apply JsSetFacts.has_In in H. unfold handles in H.
    destruct (JsMap.get u (userSockets st)) as [sids|] eqn:Eg; [|contradiction].
    assert (T : open_for st sid u = true) by (apply open_for_In; eauto).
    congruence.
Qed.

Lemma registry_holds_exactly_the_open_sockets_witness :
  JsSet.has "b2" (handles Fixtures.two_each "B") = open_for Fixtures.two_each "b2" "B".
Proof.
  apply (registry_holds_exactly_the_open_sockets Fixtures.two_each "b2" "B").
  exact two_each_reachable.
Defined.

(** X13. In every reachable state a handle belongs to one user only. *)
Theorem handle_has_one_owner st sid u u' :
  reachable st ->
  In sid (handles st u) -> In sid (handles st u') -> u = u'.
Proof.
  intros R H H'. pose proof (reachable_sockets_inv st R) as [I1 [_ [I3 _]]].
  unfold handles in H, H'.
  destruct (JsMap.get u (userSockets st)) as [s|] eqn:E; [|contradiction].
  destruct (JsMap.get u' (userSockets st)) as [s'|] eqn:E'; [|contradiction].
  destruct (I3 _ _ _ E H) as [k [Hk [Ek Eu]]].
  destruct (I3 _ _ _ E' H') as [k' [Hk' [Ek' Eu']]].
  assert (k = k') by (apply (NoDup_map_inj sock_id (io_sockets st)); congruence).
  congruence.
Qed.

Lemma handle_has_one_owner_witness :
  In "a2" (handles Fixtures.two_each "A") /\ "A" = "A".
Proof.
  split; [right; left; reflexivity|].
  apply (handle_has_one_owner Fixtures.two_each "a2" "A" "A" two_each_reachable);
    right; left; reflexivity.
Defined.

(** X14. In every reachable state each handle of a user is in that user's
    personal room, so an event emitted to the room user:<id> would reach
    every handle of the user. *)
Theorem every_handle_is_in_the_user_room st sid u n p :
  reachable st ->
  In sid (handles st u) ->
  in_room st sid (user_room u) = true /\
  receives st sid (mkEvent (ToRoom (user_room u)) n p) = true.
Proof.
  intros R H. pose proof (reachable_sockets_inv st R) as [_ [_ [I3 _]]].
  pose proof (reachable_in_user_room st R) as U.
  unfold handles in H.
  destruct (JsMap.get u (userSockets st)) as [s|] eqn:E; [|contradiction].
  destruct (I3 _ _ _ E H) as [k [Hk [Ek Eu]]].
  assert (G : in_room st sid (user_room u) = true).
  { unfold in_room. apply existsb_exists. exists k. split; [assumption|].
    apply andb_true_iff. split; [now apply String.eqb_eq|].
    apply JsSetFacts.has_In. rewrite <- Eu. now apply U. }
  split; exact G.
Qed.

Lemma every_handle_is_in_the_user_room_witness :
  In "a2" (handles Fixtures.two_each "A") /\
  in_room Fixtures.two_each "a2" (user_room "A") = true.
Proof.
  split; [right; left; reflexivity|].
  exact (proj1 (every_handle_is_in_the_user_room Fixtures.two_each "a2" "A"
                  "user:status" (PError "") two_each_reachable
                  (or_intror (or_introl eq_refl)))).
Defined.

(** ** Members are online *)

Lemma members_connected_exec st o :
  open_registered st -> enabled st o = true ->
  members_connected st -> members_connected (fst (exec st o)).
Proof.
  intros O En M. destruct o; unfold exec; try exact M.
  - intros g u Hm. rewrite is_member_get in Hm.
    cbn [on_connection fst communityMembers sio_open] in Hm.
    rewrite <- is_member_get in Hm. apply M in Hm. intros Hn. apply Hm.
    pose proof (handles_after_connect c t1 t2 st u) as Hi. rewrite Hn in Hi.
    destruct (handles st u) as [|x l]; [reflexivity|].
    exfalso. apply (Hi x). now left.
  - intros g u Hm. change (handles (fst (on_joinCommunity c communityId t st)) u)
      with (handles st u).
    destruct (String.eqb g communityId) eqn:Eg.
    + apply String.eqb_eq in Eg. subst g.
      destruct (String.eqb u (userId c)) eqn:Eu.
      * apply String.eqb_eq in Eu. subst u. cbn [enabled] in En.
        apply is_open_In in En. destruct En as [k [Hk [Ek Euk]]].
        specialize (O k Hk). rewrite Euk in O. intros Hn. now rewrite Hn in O.
      * apply String.eqb_neq in Eu. apply (M communityId).
        rewrite <- Hm. symmetry.
        apply (join_changes_no_other_membership_aux st c communityId t communityId u).
        now right.
    + apply String.eqb_neq in Eg. apply (M g). rewrite <- Hm. symmetry.
      apply (join_changes_no_other_membership_aux st c communityId t g u). now left.
  - unfold on_direct_message. destruct saved; exact M.
  - intros g u Hm. destruct (String.eqb u (userId c)) eqn:Eu.
    + apply String.eqb_eq in Eu. subst u.
      rewrite is_member_get, on_disconnect_communityMembers in Hm.
      unfold handles. rewrite on_disconnect_userSockets.
      cbn [sio_close userSockets communityMembers] in *.
      destruct (JsMap.get (userId c) (userSockets st)) as [sids|] eqn:E.
      * rewrite JsMapFacts.get_set_same.
        destruct (Nat.eqb (JsSet.size (JsSet.delete (c_id c) sids)) 0) eqn:Ez.
        -- rewrite cascade_not_member in Hm. discriminate.
        -- intros Hn. now rewrite Hn in Ez.
      * rewrite <- is_member_get in Hm. apply M in Hm. unfold handles in Hm.
        now rewrite E in *.
    + apply String.eqb_neq in Eu.
      destruct (disconnect_leaves_other_users_aux st c t1 t2 u g Eu) as [Hh [_ Hm']].
      unfold exec in Hh, Hm'. rewrite Hh. apply (M g). now rewrite <- Hm'.
Qed.

Lemma reachable_members_connected st : reachable st -> members_connected st.
Proof.
  intros R. induction R as [|st o R IH En].
  - intros g u H. discriminate.
  - apply members_connected_exec; [now apply reachable_open_registered | assumption..].
Qed.

Lemma reachable_presence_inv st : reachable st -> presence_inv st.
Proof.
  apply reachable_invariant; [exact presence_inv_init | exact presence_inv_exec].
Qed.

(** X15. In every reachable state whoever appears in a community's
    membership map is online and has at least one open handle. *)
Theorem members_are_online st g u :
  reachable st ->
  is_member st g u = true ->
  is_online st u = true /\ handles st u <> [].
Proof.
  intros R Hm. pose proof (reachable_members_connected st R g u Hm) as Hh.
  split; [|exact Hh]. rewrite (reachable_presence_inv st R u).
  unfold JsSet.size. destruct (handles st u); [congruence | reflexivity].
Qed.

Lemma members_are_online_witness :
  is_member Fixtures.in_groups "g3" "B" = true /\
  is_online Fixtures.in_groups "B" = true.
Proof.
  split; [reflexivity|].
  exact (proj1 (members_are_online Fixtures.in_groups "g3" "B" in_groups_reachable eq_refl)).
Defined.

(** ** Direct messages reach the recipient's handles and nobody else *)

Lemma receives_handle_room st u sids sid s n p :
  sockets_inv st -> JsMap.get u (userSockets st) = Some sids -> In s sids ->
  receives st sid (mkEvent (ToRoom s) n p) = String.eqb sid s.
Proof.
  intros I Hg Hs. destruct (String.eqb sid s) eqn:E.
  - apply String.eqb_eq in E. subst s. now apply (receives_own_room st u sids).
  - apply String.eqb_neq in E. now apply (receives_other_room st u sids).
Qed.

Lemma deliveries_to_handles st u sids sid n p l :
  sockets_inv st -> JsMap.get u (userSockets st) = Some sids ->
  incl l sids -> NoDup l ->
  length (filter (receives st sid) (map (fun s => mkEvent (ToRoom s) n p) l)) =
  if JsSet.has sid l then 1 else 0.
Proof.
  intros I Hg. induction l as [|s l IH]; intros Hi ND; [reflexivity|].
  inversion ND as [|? ? Hx ND']; subst.
  assert (Hs : In s sids) by (apply Hi; now left).
  assert (Hl : incl l sids) by (intros x Hx'; apply Hi; now right).
  specialize (IH Hl ND'). cbn [map filter].
  rewrite (receives_handle_room st u sids sid s n p I Hg Hs).
  unfold JsSet.has in *. cbn [existsb].
  destruct (String.eqb sid s) eqn:E; cbn [length orb]; [|exact IH].
  apply String.eqb_eq in E. subst s. rewrite IH.
  destruct (existsb (String.eqb sid) l) eqn:E2; [|reflexivity].
  exfalso. apply Hx. apply existsb_exists in E2. destruct E2 as [y [Hy Ey]].
  apply String.eqb_eq in Ey. now subst.
Qed.

Lemma named_delivered_filter st sid n evs :
  named n (delivered st sid evs) = delivered st sid (named n evs).
Proof.
  unfold named, delivered. induction evs as [|e evs IH]; [reflexivity|].
  cbn [filter]. destruct (receives st sid e) eqn:R, (String.eqb (ev_name e) n) eqn:N;
    cbn [filter]; rewrite ?R, ?N, IH; reflexivity.
Qed.

Lemma named_same n (mk : string -> event) l :
  (forall s, ev_name (mk s) = n) -> named n (map mk l) = map mk l.
Proof.
  intros H. unfold named. induction l as [|s l IH]; [reflexivity|].
  cbn [map filter]. now rewrite H, String.eqb_refl, IH.
Qed.

(** X16. For a saved direct message, whatever the number of handles of the
    recipient: a socket receives the message exactly once if it is one of
    the recipient's handles, and not at all otherwise. *)
Theorem direct_message_reaches_exactly_the_recipient st c recipientId message m sid :
  reachable st ->
  length (named "direct:message:new"
            (delivered st sid
               (snd (exec st (DirectMessage c recipientId message (Some m)))))) =
  if JsSet.has sid (handles st recipientId) then 1 else 0.
Proof.
  intros R. pose proof (reachable_sockets_inv st R) as I.
  rewrite named_delivered_filter. cbn [exec on_direct_message snd]. unfold handles.
  unfold named at 1. rewrite filter_app. cbn [filter ev_name].
  change (String.eqb "direct:message:sent" "direct:message:new") with false.
  cbv iota. rewrite app_nil_r.
  destruct (JsMap.get recipientId (userSockets st)) as [sids|] eqn:E; [|reflexivity].
  change (filter (fun e => String.eqb (ev_name e) "direct:message:new") ?l)
    with (named "direct:message:new" l).
  rewrite named_same by reflexivity.
  apply (deliveries_to_handles st recipientId sids); [assumption.. | apply incl_refl |].
  destruct I as [_ [_ [_ I4]]]. eauto.
Qed.

Lemma direct_message_reaches_exactly_the_recipient_witness :
  length (named "direct:message:new"
            (delivered Fixtures.two_each "a2"
               (snd (exec Fixtures.two_each
                       (DirectMessage Fixtures.a1 "B" "hi" (Some "saved")))))) =
  if JsSet.has "a2" (handles Fixtures.two_each "B") then 1 else 0.
Proof.
  apply (direct_message_reaches_exactly_the_recipient Fixtures.two_each Fixtures.a1
           "B" "hi" "saved" "a2").
  exact two_each_reachable.
Defined.

(** ** Nothing is ever forgotten *)

Lemma keys_set_incl {V} (k : string) (v : V) (m : JsMap.t V) :
  incl (JsMap.keys m) (JsMap.keys (JsMap.set k v m)).
Proof.
  destruct (JsMap.has k m) eqn:E.
  - rewrite JsMapFacts.keys_set_present by assumption. apply incl_refl.
  - rewrite JsMapFacts.keys_set_absent by assumption. now apply incl_appl, incl_refl.
Qed.

Lemma keys_kept_refl st : keys_kept st st.
Proof. repeat split; apply incl_refl. Qed.

Lemma keys_kept_trans s1 s2 s3 : keys_kept s1 s2 -> keys_kept s2 s3 -> keys_kept s1 s3.
Proof.
  intros [A1 [A2 A3]] [B1 [B2 B3]]. repeat split; eapply incl_tran; eassumption.
Qed.

Lemma keys_kept_exec st o : keys_kept st (fst (exec st o)).
Proof.
  destruct o; unfold exec; try apply keys_kept_refl.
  - repeat split; cbn [on_connection fst activeUsers userSockets communityMembers sio_open].
    + apply keys_set_incl.
    + unfold JsMap.has.
      destruct (JsMap.get (userId c) (userSockets st)) as [s|] eqn:E; cbn [negb].
      * rewrite E. apply keys_set_incl.
      * rewrite JsMapFacts.get_set_same.
        eapply incl_tran; [|apply keys_set_incl]. apply keys_set_incl.
    + apply incl_refl.
  - repeat split; cbn [on_joinCommunity fst activeUsers userSockets communityMembers];
      try apply incl_refl.
    unfold JsMap.has.
    destruct (JsMap.get communityId (communityMembers st)) as [s|] eqn:E; cbn [negb].
    + rewrite E. apply keys_set_incl.
    + rewrite JsMapFacts.get_set_same.
      eapply incl_tran; [|apply keys_set_incl]. apply keys_set_incl.
  - unfold on_direct_message. destruct saved; apply keys_kept_refl.
  - unfold keys_kept.
    rewrite on_disconnect_activeUsers, on_disconnect_userSockets,
      on_disconnect_communityMembers.
    cbn [sio_close activeUsers userSockets communityMembers].
    destruct (JsMap.get (userId c) (userSockets st)) as [sids|];
      [|repeat split; apply incl_refl].
    split; [|split].
    + destruct (Nat.eqb _ 0); [|apply incl_refl].
      destruct (JsMap.get (userId c) (activeUsers st)); [|apply incl_refl].
      apply keys_set_incl.
    + apply keys_set_incl.
    + destruct (Nat.eqb _ 0); [|apply incl_refl].
      rewrite cascade_keys. apply incl_refl.
Qed.

(** X17. No operation removes a key from the presence table, the handle
    registry or the community index: after any sequence of operations every
    user that had a presence record or a handle set still has one (possibly
    offline, possibly empty), and every community that had a membership map
    still has one (possibly empty). *)
Theorem index_keys_are_never_removed (st : state) (ops : list op) :
  incl (JsMap.keys (activeUsers st)) (JsMap.keys (activeUsers (fst (run st ops)))) /\
  incl (JsMap.keys (userSockets st)) (JsMap.keys (userSockets (fst (run st ops)))) /\
  incl (JsMap.keys (communityMembers st))
       (JsMap.keys (communityMembers (fst (run st ops)))).
Proof.
  change (keys_kept st (fst (run st ops))). revert st.
  induction ops as [|o ops IH]; intros st; cbn [run]; [apply keys_kept_refl|].
  pose proof (keys_kept_exec st o) as H1.
  destruct (exec st o) as [st1 evs1]. cbn [fst] in H1.
  specialize (IH st1). destruct (run st1 ops) as [st2 evs2]. cbn [fst] in *.
  eapply keys_kept_trans; eassumption.
Qed.

(** ** One presence record per user *)

Lemma presence_wf_exec st o : presence_wf st -> presence_wf (fst (exec st o)).
Proof.
  intros [ND Hid]. destruct o; unfold exec; try (split; assumption).
  - split; cbn [on_connection fst activeUsers sio_open].
    + now apply JsMapFacts.NoDup_keys_set.
    + intros u p H. destruct (String.eqb u (userId c)) eqn:E.
      * apply String.eqb_eq in E. subst u. rewrite JsMapFacts.get_set_same in H.
        now injection H as <-.
      * apply String.eqb_neq in E. rewrite JsMapFacts.get_set_other in H by assumption.
        now apply Hid.
  - unfold on_direct_message. destruct saved; split; assumption.
  - unfold presence_wf. rewrite on_disconnect_activeUsers.
    cbn [sio_close userSockets activeUsers].
    destruct (JsMap.get (userId c) (userSockets st)); [|split; assumption].
    destruct (Nat.eqb _ 0); [|split; assumption].
    destruct (JsMap.get (userId c) (activeUsers st)) as [p0|] eqn:E0; [|split; assumption].
    split; [now apply JsMapFacts.NoDup_keys_set|].
    intros u p H. destruct (String.eqb u (userId c)) eqn:E.
    + apply String.eqb_eq in E. subst u. rewrite JsMapFacts.get_set_same in H.
      injection H as <-. cbn [p_id]. now apply Hid.
    + apply String.eqb_neq in E. rewrite JsMapFacts.get_set_other in H by assumption.
      now apply Hid.
Qed.

Lemma count_absent {V} (k : string) (m : JsMap.t V) :
  JsMap.get k m = None -> JsMap.count k m = 0.
Proof.
  unfold JsMap.count. induction m as [|[k' v'] m IH]; [reflexivity|].
  cbn [JsMap.get filter fst]. destruct (String.eqb k k'); [discriminate | exact IH].
Qed.

(** X18. After any sequence of operations the presence table holds at most
    one record per user id, and the record stored for a user carries that
    user's id. *)
Theorem one_presence_record_per_user (ops : list op) (u : string) :
  match JsMap.get u (activeUsers (fst (run init ops))) with
  | Some p => p_id p = u /\ JsMap.count u (activeUsers (fst (run init ops))) = 1
  | None => JsMap.count u (activeUsers (fst (run init ops))) = 0
  end.
Proof.
  assert (W : presence_wf init) by (split; [constructor | discriminate]).
  pose proof (run_invariant presence_wf presence_wf_exec ops init W) as [ND Hid].
  destruct (JsMap.get u (activeUsers (fst (run init ops)))) as [p|] eqn:E.
  - split; [now apply Hid|]. apply JsMapFacts.count_NoDup; [assumption|].
    unfold JsMap.has. now rewrite E.
  - now apply count_absent.
Qed.

(** ** The handshake *)

Lemma truthy_nonempty (token : option string) :
  truthy token = true <-> exists t, token = Some t /\ t <> "".
Proof.
  split.
  - destruct token as [[|a s]|]; try discriminate. intros _. eexists. split; [reflexivity|].
    discriminate.
  - intros [t [-> N]]. destruct t; [congruence | reflexivity].
Qed.

(** X19. The middleware lets a connection through exactly when the
    handshake carries a non-empty token that jwt.verify accepts; the user
    it stores takes its id from the id claim, or from sub when id is missing
    or empty, and its image from picture, or from image likewise. *)
Theorem handshake_accepts_exactly_verified_tokens jwt_verify token user :
  authenticate jwt_verify token = Accepted user <->
  exists t d, token = Some t /\ t <> "" /\ jwt_verify t = Some d /\
              user = mkAuthUser (js_or (d_id d) (d_sub d)) (d_name d) (d_email d)
                                (js_or (d_picture d) (d_image d)).
Proof.
  unfold authenticate, verifyToken. split.
  - destruct (truthy token) eqn:T; cbn [negb]; [|discriminate].
    apply truthy_nonempty in T. destruct T as [t [-> N]].
    destruct (jwt_verify t) as [d|] eqn:E; [|discriminate].
    intros [= <-]. exists t, d. auto.
  - intros [t [d [-> [N [E ->]]]]].
    assert (T : truthy (Some t) = true) by (apply truthy_nonempty; eauto).
    rewrite T, E. reflexivity.
Qed.

(** X20. A refused handshake says why, and there are three reasons and no
    other: reading the token threw because the handshake carries no auth
    object (failed); the token is missing or empty (required), whatever
    jwt.verify would say; or jwt.verify rejects the token (invalid). *)
Theorem handshake_refusals jwt_verify auth message :
  io_use jwt_verify auth = Refused message <->
  (auth = None /\ message = "Authentication failed") \/
  (exists token, auth = Some token /\ truthy token = false /\
                 message = "Authentication token required") \/
  (exists t, auth = Some (Some t) /\ t <> "" /\ jwt_verify t = None /\
             message = "Invalid authentication token").
Proof.
  unfold io_use, authenticate, verifyToken. split.
  - destruct auth as [token|]; [|intros [= <-]; now left].
    destruct (truthy token) eqn:T; cbn [negb].
    + apply truthy_nonempty in T. destruct T as [t [-> N]].
      destruct (jwt_verify t) eqn:E; [discriminate|].
      intros [= <-]. right. right. exists t. auto.
    + intros [= <-]. right. left. exists token. auto.
  - intros [[-> ->] | [[token [-> [T ->]]] | [t [-> [N [E ->]]]]]].
    + reflexivity.
    + now rewrite T.
    + assert (T : truthy (Some t) = true) by (apply truthy_nonempty; eauto).
      rewrite T, E. reflexivity.
Qed.

(** ** Member snapshots *)

Lemma get_delete {V} (k k' : string) (m : JsMap.t V) :
  JsMap.get k (JsMap.delete k' m) = if String.eqb k k' then None else JsMap.get k m.
Proof.
  unfold JsMap.delete. induction m as [|[k2 v2] m IH]; cbn [filter fst JsMap.get].
  - now destruct (String.eqb k k').
  - destruct (String.eqb k' k2) eqn:E; cbn [negb JsMap.get].
    + rewrite IH. apply String.eqb_eq in E. subst k2.
      now destruct (String.eqb k k').
    + rewrite IH. destruct (String.eqb k k') eqn:E2; [|reflexivity].
      apply String.eqb_eq in E2. subst k'. now rewrite E.
Qed.

Lemma snapshots_wf_exec st o : snapshots_wf st -> snapshots_wf (fst (exec st o)).
Proof.
  intros I. destruct o; unfold exec; try exact I.
  - intros g u mb H. destruct (String.eqb g communityId) eqn:Eg.
    + apply String.eqb_eq in Eg. subst g. rewrite join_members in H.
      destruct (String.eqb u (userId c)) eqn:Eu.
      * apply String.eqb_eq in Eu. subst u. rewrite JsMapFacts.get_set_same in H.
        injection H as <-. split; reflexivity.
      * apply String.eqb_neq in Eu. rewrite JsMapFacts.get_set_other in H by assumption.
        now apply (I communityId).
    + apply String.eqb_neq in Eg. rewrite join_members_other in H by assumption.
      now apply (I g).
  - unfold on_direct_message. destruct saved; exact I.
  - intros g u mb H. apply (I g). unfold members_of in *.
    rewrite on_disconnect_communityMembers in H. cbn [sio_close userSockets communityMembers] in H.
    destruct (JsMap.get (userId c) (userSockets st)); [|exact H].
    destruct (Nat.eqb _ 0); [|exact H].
    rewrite cascade_get in H.
    destruct (JsMap.get g (communityMembers st)) as [ms|]; [|exact H].
    destruct (JsMap.has (userId c) ms); [|exact H].
    rewrite get_delete in H. destruct (String.eqb u (userId c)); [discriminate | exact H].
Qed.

(** X21. After any sequence of operations every snapshot in a community's
    membership map is stored under its own user id and says online: a user
    who goes offline is removed from the maps, never marked offline in
    them. *)
Theorem member_snapshots_say_online (ops : list op) (g u : string) :
  match JsMap.get u (members_of (fst (run init ops)) g) with
  | Some mb => m_id mb = u /\ m_status mb = online
  | None => True
  end.
Proof.
  assert (W : snapshots_wf init) by (intros g' u' mb H; discriminate).
  pose proof (run_invariant snapshots_wf snapshots_wf_exec ops init W g u) as H.
  destruct (JsMap.get u (members_of (fst (run init ops)) g)); [now apply H | exact I].
Qed.

(** ** Presence and the open sockets *)

Lemma admitted_prefix ops :
  forall n st, admitted st ops = true -> admitted st (firstn n ops) = true.
Proof.
  induction ops as [|o ops IH]; intros [|n] st H; try reflexivity.
  cbn [firstn admitted] in *. apply andb_true_iff in H. destruct H as [He Ha].
  rewrite He. cbn [andb]. now apply IH.
Qed.

Lemma has_open_socket_In st u :
  has_open_socket st u = true <->
  exists k, In k (io_sockets st) /\ user_id (sock_user k) = u.
Proof.
  unfold has_open_socket. rewrite existsb_exists. split.
  - intros [k [Hk E]]. apply String.eqb_eq in E. eauto.
  - intros [k [Hk E]]. exists k. split; [assumption | now apply String.eqb_eq].
Qed.

Lemma reachable_online_iff_open st u :
  reachable st -> is_online st u = has_open_socket st u.
Proof.
  intros R. pose proof (reachable_sockets_inv st R) as [_ [_ [I3 _]]].
  pose proof (reachable_open_registered st R) as O.
  rewrite (reachable_presence_inv st R u). unfold JsSet.size.
  destruct (has_open_socket st u) eqn:E.
  - apply has_open_socket_In in E. destruct E as [k [Hk <-]].
    specialize (O k Hk). destruct (handles st (user_id (sock_user k))); [contradiction|].
    reflexivity.
  - destruct (handles st u) as [|sid l] eqn:Eh; [reflexivity|]. exfalso.
    unfold handles in Eh.
    destruct (JsMap.get u (userSockets st)) as [sids|] eqn:Eg; [|discriminate].
    subst sids. destruct (I3 u _ sid Eg (or_introl eq_refl)) as [k [Hk [_ Eu]]].
    assert (T : has_open_socket st u = true) by (apply has_open_socket_In; eauto).
    congruence.
Qed.

(** C2. Over every sequence of connects, disconnects and commands that
    Socket.IO admits, after each prefix of the sequence a user's presence
    record says online exactly when the user has an open socket, and
    exactly when the registry holds a handle for the user. *)
Theorem presence_online_iff_open_socket (ops : list op) (n : nat) (u : string) :
  admitted init ops = true ->
  let st := fst (run init (firstn n ops)) in
  (is_online st u = true <-> has_open_socket st u = true) /\
  (is_online st u = true <-> handles st u <> []).
Proof.
  intros A. cbv zeta.
  assert (R : reachable (fst (run init (firstn n ops)))).
  { apply (admitted_reachable _ init reach_init). now apply admitted_prefix. }
  split.
  - now rewrite (reachable_online_iff_open _ u R).
  - rewrite (reachable_presence_inv _ R u). unfold JsSet.size.
    destruct (handles (fst (run init (firstn n ops))) u); simpl; split;
      congruence || discriminate.
Qed.

Lemma presence_online_iff_open_socket_witness :
  admitted init [Connect Fixtures.a1 1 2; Connect Fixtures.b1 3 4;
                 Disconnect Fixtures.a1 5 6; Connect Fixtures.b2 7 8] = true /\
  (is_online (fst (run init (firstn 3 [Connect Fixtures.a1 1 2; Connect Fixtures.b1 3 4;
                                        Disconnect Fixtures.a1 5 6; Connect Fixtures.b2 7 8])))
             "A" = true <->
   has_open_socket (fst (run init (firstn 3 [Connect Fixtures.a1 1 2; Connect Fixtures.b1 3 4;
                                             Disconnect Fixtures.a1 5 6; Connect Fixtures.b2 7 8])))
                   "A" = true).
Proof.
  split; [reflexivity|].
  exact (proj1 (presence_online_iff_open_socket
                  [Connect Fixtures.a1 1 2; Connect Fixtures.b1 3 4;
                   Disconnect Fixtures.a1 5 6; Connect Fixtures.b2 7 8] 3 "A" eq_refl)).
Defined.


(** ** The last disconnect and the community rooms *)

Lemma member_left_delivered st sid g evs :
  member_left_events g (delivered st sid evs) =
  delivered st sid (member_left_events g evs).
Proof.
  unfold member_left_events, delivered. induction evs as [|e evs IH]; [reflexivity|].
  cbn [filter].
  destruct (receives st sid e) eqn:R;
    destruct (match ev_payload e with PMemberLeft g' _ => String.eqb g' g | _ => false end)
      eqn:P; cbn [filter]; rewrite ?R, ?P, IH; reflexivity.
Qed.

Lemma receives_ToRoom st sid r n p :
  receives st sid (mkEvent (ToRoom r) n p) = in_room st sid r.
Proof. reflexivity. Qed.

(** C3 (as the code has it). When the only remaining handle of a user
    disconnects, the user is in no community's membership map afterwards;
    for each community exactly one member-left event is emitted if the user
    was a member of it and none otherwise; and that event is addressed to
    the community's room: a socket receives it exactly when it is open and
    in that room. *)
Theorem last_disconnect_notifies_group_rooms st c t1 t2 g sid :
  reachable st ->
  handles st (userId c) = [c_id c] ->
  is_member (fst (exec st (Disconnect c t1 t2))) g (userId c) = false /\
  member_left_events g (snd (exec st (Disconnect c t1 t2))) =
    (if is_member st g (userId c) then [community_left (userId c) g] else []) /\
  member_left_events g
    (delivered (fst (exec st (Disconnect c t1 t2))) sid
               (snd (exec st (Disconnect c t1 t2)))) =
    (if is_member st g (userId c)
        && in_room (fst (exec st (Disconnect c t1 t2))) sid (community_room g)
     then [community_left (userId c) g] else []).
Proof.
  intros R Hh.
  destruct (last_disconnect_group_events st c t1 t2 g R Hh) as [H1 H2].
  split; [exact H1|]. split; [exact H2|].
  rewrite member_left_delivered, H2.
  destruct (is_member st g (userId c)); [|reflexivity].
  unfold delivered. cbn [filter andb]. unfold community_left at 1.
  rewrite receives_ToRoom.
  destruct (in_room _ sid (community_room g)); reflexivity.
Qed.

Lemma last_disconnect_notifies_group_rooms_witness :
  handles Fixtures.in_groups "A" = ["a1"] /\
  member_left_events "g1"
    (delivered (fst (exec Fixtures.in_groups (Disconnect Fixtures.a1 9 10))) "b1"
               (snd (exec Fixtures.in_groups (Disconnect Fixtures.a1 9 10)))) =
    (if is_member Fixtures.in_groups "g1" "A"
        && in_room (fst (exec Fixtures.in_groups (Disconnect Fixtures.a1 9 10))) "b1"
                   (community_room "g1")
     then [community_left "A" "g1"] else []).
Proof.
  split; [reflexivity|].
  exact (proj2 (proj2 (last_disconnect_notifies_group_rooms Fixtures.in_groups Fixtures.a1
                         9 10 "g1" "b1" in_groups_reachable eq_refl))).
Defined.

(** C3 fails as stated: Bob joined the community on a socket that has since
    closed and is still online on another one.  When Alice's only handle
    disconnects (a run Socket.IO admits), Bob is a remaining member of the
    community, yet his open socket receives no member-left event. *)
Lemma member_left_misses_a_remaining_member :
  admitted init [Connect Fixtures.a1 1 2; Connect Fixtures.b1 3 4; Connect Fixtures.b2 5 6;
                 JoinCommunity Fixtures.a1 "g1" 7; JoinCommunity Fixtures.b1 "g1" 8;
                 Disconnect Fixtures.b1 9 10; Disconnect Fixtures.a1 11 12] = true /\
  handles Scenes.member_outside_room "A" = ["a1"] /\
  is_member Scenes.member_outside_room "g1" "A" = true /\
  is_member (fst (exec Scenes.member_outside_room (Disconnect Fixtures.a1 11 12))) "g1" "B"
    = true /\
  handles (fst (exec Scenes.member_outside_room (Disconnect Fixtures.a1 11 12))) "B"
    = ["b2"] /\
  member_left_events "g1"
    (snd (exec Scenes.member_outside_room (Disconnect Fixtures.a1 11 12)))
    = [community_left "A" "g1"] /\
  member_left_events "g1"
    (delivered (fst (exec Scenes.member_outside_room (Disconnect Fixtures.a1 11 12))) "b2"
               (snd (exec Scenes.member_outside_room (Disconnect Fixtures.a1 11 12))))
    = [].
Proof. vm_compute. repeat split. Qed.

(** ** A second disconnect *)



